(** * Voice front end: intent parser and speech channel coordination

    A shallow embedding of [web/app.js]: the local intent parser
    [parseVoiceCommandLocal] with the string primitives it uses, and the
    event handlers that drive speech recognition (input) and speech
    synthesis (output) over the page's global flags and the browser's
    timer table.  [web/app.js] holds the script twice, a current version
    followed by an earlier one; the embedding follows the current one.

    JavaScript strings are modelled as [string] (a sequence of 8-bit
    characters): case mapping and white space are the ASCII ones, other
    characters are left untouched by [toLowerCase] / [toUpperCase] and are
    never white space. *)

From Stdlib Require Import Ascii String Bool Arith Lia DecimalString.
From stdpp Require Import base option list gmap strings.

Open Scope string_scope.

(** ** String primitives *)

Module Str.

(** [\s] restricted to ASCII: space, TAB, LF, VT, FF, CR. *)
Definition isSpace (c : ascii) : bool :=
  let n := nat_of_ascii c in
  (n =? 32)%nat || ((9 <=? n)%nat && (n <=? 13)%nat).

Definition lowerChar (c : ascii) : ascii :=
  let n := nat_of_ascii c in
  if (65 <=? n)%nat && (n <=? 90)%nat then ascii_of_nat (n + 32) else c.

Definition upperChar (c : ascii) : ascii :=
  let n := nat_of_ascii c in
  if (97 <=? n)%nat && (n <=? 122)%nat then ascii_of_nat (n - 32) else c.

Fixpoint map (f : ascii -> ascii) (s : string) : string :=
  match s with
  | EmptyString => EmptyString
  | String c s' => String (f c) (map f s')
  end.

(** [s.toLowerCase()], [s.toUpperCase()] *)
Definition toLowerCase : string -> string := map lowerChar.
Definition toUpperCase : string -> string := map upperChar.

Fixpoint trimStart (s : string) : string :=
  match s with
  | EmptyString => EmptyString
  | String c s' => if isSpace c then trimStart s' else s
  end.

Definition isEmpty (s : string) : bool :=
  match s with EmptyString => true | _ => false end.

Fixpoint trimEnd (s : string) : string :=
  match s with
  | EmptyString => EmptyString
  | String c s' =>
      let t := trimEnd s' in
      if isSpace c && isEmpty t then EmptyString else String c t
  end.

(** [s.trim()] *)
Definition trim (s : string) : string := trimEnd (trimStart s).

(** [s.startsWith(p)] *)
Fixpoint startsWith (p s : string) : bool :=
  match p, s with
  | EmptyString, _ => true
  | String _ _, EmptyString => false
  | String a p', String b s' => Ascii.eqb a b && startsWith p' s'
  end.

(** [s.includes(p)] *)
Fixpoint includes (s p : string) : bool :=
  startsWith p s ||
  match s with
  | EmptyString => false
  | String _ s' => includes s' p
  end.

(** [s.slice(n)] for [0 <= n] *)
Fixpoint drop (n : nat) (s : string) : string :=
  match n, s with
  | O, _ => s
  | S _, EmptyString => EmptyString
  | S k, String _ s' => drop k s'
  end.

(** [s.slice(0, n)] for [0 <= n] *)
Fixpoint take (n : nat) (s : string) : string :=
  match n, s with
  | O, _ => EmptyString
  | S _, EmptyString => EmptyString
  | S k, String c s' => String c (take k s')
  end.

(** [s.endsWith(p)] *)
Definition endsWith (p s : string) : bool :=
  (String.length p <=? String.length s)%nat &&
  String.eqb (drop (String.length s - String.length p) s) p.

(** [s.slice(0, -k)] for [0 < k] *)
Definition dropEnd (k : nat) (s : string) : string :=
  take (String.length s - k) s.

(** [s.replace(p, r)] with a string pattern: the first occurrence only. *)
Fixpoint replaceFirst (p r s : string) : string :=
  if startsWith p s then r +:+ drop (String.length p) s
  else match s with
       | EmptyString => EmptyString
       | String c s' => String c (replaceFirst p r s')
       end.

(** [s.replace(new RegExp(escaped p, 'g'), r)] for a non-empty literal
    [p]: every occurrence, left to right, without overlap.  [skip] counts
    the characters of the current match still to be consumed. *)
Fixpoint replaceAllFrom (p r : string) (skip : nat) (s : string) : string :=
  match s with
  | EmptyString => EmptyString
  | String c s' =>
      match skip with
      | S k => replaceAllFrom p r k s'
      | O =>
          if startsWith p s
          then r +:+ replaceAllFrom p r (String.length p - 1) s'
          else String c (replaceAllFrom p r 0 s')
      end
  end.

Definition replaceAll (p r s : string) : string := replaceAllFrom p r 0 s.

(** [s.replace(/stats?/g, '')]: the greedy [s?] takes the [s] when it is
    there. *)
Fixpoint removeStatsFrom (skip : nat) (s : string) : string :=
  match s with
  | EmptyString => EmptyString
  | String c s' =>
      match skip with
      | S k => removeStatsFrom k s'
      | O =>
          if startsWith "stats" s then removeStatsFrom 4 s'
          else if startsWith "stat" s then removeStatsFrom 3 s'
          else String c (removeStatsFrom 0 s')
      end
  end.

Definition removeStats (s : string) : string := removeStatsFrom 0 s.

(** [s.replace(/\s+/g, ' ')] *)
Fixpoint collapseFrom (inRun : bool) (s : string) : string :=
  match s with
  | EmptyString => EmptyString
  | String c s' =>
      if isSpace c
      then (if inRun then collapseFrom true s'
            else String " " (collapseFrom true s'))
      else String c (collapseFrom false s')
  end.

Definition collapseSpaces (s : string) : string := collapseFrom false s.

(** [s.split(sep)] for a non-empty separator; [cur] is the part being
    read. *)
Fixpoint splitFrom (sep : string) (skip : nat) (cur s : string)
  : list string :=
  match s with
  | EmptyString => [cur]
  | String c s' =>
      match skip with
      | S k => splitFrom sep k cur s'
      | O =>
          if startsWith sep s
          then cur :: splitFrom sep (String.length sep - 1) EmptyString s'
          else splitFrom sep 0 (cur +:+ String c EmptyString) s'
      end
  end.

Definition split (sep s : string) : list string :=
  splitFrom sep 0 EmptyString s.

(** [a || b] on strings: the empty string is falsy. *)
Definition orElse (a b : string) : string := if isEmpty a then b else a.

End Str.

(** ** Intents *)

Inductive Action :=
| search_player | compare_players | club_achievements | club_info
| show_favorites
| add_player_favorite | add_club_favorite
| add_current_player_favorite | add_current_club_favorite
| remove_player_favorite | remove_club_favorite
| read_injuries | read_transfers | read_achievements | read_market_value
| stop_speaking | resume_speaking
| other_action.   (* any other string a remote parser may answer *)

Definition Action_eqb (a b : Action) : bool :=
  match a, b with
  | search_player, search_player | compare_players, compare_players
  | club_achievements, club_achievements | club_info, club_info
  | show_favorites, show_favorites
  | add_player_favorite, add_player_favorite
  | add_club_favorite, add_club_favorite
  | add_current_player_favorite, add_current_player_favorite
  | add_current_club_favorite, add_current_club_favorite
  | remove_player_favorite, remove_player_favorite
  | remove_club_favorite, remove_club_favorite
  | read_injuries, read_injuries | read_transfers, read_transfers
  | read_achievements, read_achievements
  | read_market_value, read_market_value
  | stop_speaking, stop_speaking | resume_speaking, resume_speaking
  | other_action, other_action => true
  | _, _ => false
  end.

(** The object literal the parser returns; an absent or [null] field is
    [None]. *)
Record Intent := mkIntent {
  action : Action;
  playerName : option string;
  playerName2 : option string;
  clubName : option string
}.

Definition intent (a : Action) : Intent := mkIntent a None None None.

(** ** The local parser *)

Module Parser.
Import Str.

(** [['a'; 'b'; ...].forEach(prefix => { if (x.startsWith(prefix))
    x = x.slice(prefix.length).trim() })] *)
Definition stripPrefixes (prefixes : list string) (s : string) : string :=
  foldl (fun x prefix =>
           if startsWith prefix x
           then trim (drop (String.length prefix) x) else x)
        s prefixes.

(** [[' stats'; ...].forEach(suffix => { if (x.endsWith(suffix))
    x = x.slice(0, -suffix.length).trim() })] *)
Definition stripSuffixes (suffixes : list string) (s : string) : string :=
  foldl (fun x suffix =>
           if endsWith suffix x
           then trim (dropEnd (String.length suffix) x) else x)
        s suffixes.

(** [extractNameFromCommand] *)
Definition extractNameFromCommand (commandLower : string)
    (wordsToRemove : list string) : string :=
  let name := foldl (fun name word => replaceAll word " " name)
                    commandLower wordsToRemove in
  trim (collapseSpaces name).

Definition clubKeywords : list string :=
  ["club"; "fc"; "united"; "city"; "arsenal"; "chelsea"; "liverpool";
   "manchester"; "barcelona"; "real madrid"; "psg"; "bayern"; "juventus"].

Definition isStopCommand (commandLower : string) : bool :=
  String.eqb commandLower "stop"
  || startsWith "stop " commandLower
  || includes commandLower "stop talking"
  || includes commandLower "stop reading"
  || includes commandLower "be quiet"
  || includes commandLower "shut up"
  || includes commandLower "quiet".

(** The rules that follow the stop rule, in source order; each [if] that
    does not return falls through to the next. *)
Definition playerStatsRule (command commandLower : string) : Intent :=
  let fallback :=
    let cleaned :=
      stripPrefixes
        ["show me"; "show"; "find"; "get"; "search for"; "display"]
        commandLower in
    if negb (isEmpty cleaned)
    then mkIntent search_player (Some cleaned) None None
    else mkIntent search_player (Some command) None None in
  if includes commandLower "stats" || includes commandLower "statistics"
     || includes commandLower "stat"
  then
    let '(playerPart, clubPart) :=
      if includes commandLower " for "
      then
        let parts := split " for " commandLower in
        (nth 0 parts EmptyString, Some (trim (nth 1 parts EmptyString)))
      else (commandLower, None) in
    let playerPart :=
      stripPrefixes
        ["show me"; "show"; "find"; "get"; "search for"; "stats for";
         "statistics for"; "display"] playerPart in
    let playerPart :=
      stripSuffixes [" stats"; " statistics"; " stat"] playerPart in
    if negb (isEmpty playerPart)
    then
      mkIntent search_player (Some playerPart) None
        (match clubPart with
         | Some c => if isEmpty c then None else Some (toUpperCase c)
         | None => None
         end)
    else fallback
  else fallback.

Definition clubRule (command commandLower : string) : Intent :=
  if existsb (fun keyword => includes commandLower keyword) clubKeywords
     && negb (includes commandLower "stats")
     && negb (includes commandLower "statistics")
  then
    let clubName :=
      stripPrefixes
        ["show"; "display"; "get"; "find"; "club"; "info"; "information";
         "achievements"; "team"] commandLower in
    let clubName := trim (removeStats clubName) in
    if negb (isEmpty clubName)
    then mkIntent club_achievements None None (Some clubName)
    else playerStatsRule command commandLower
  else playerStatsRule command commandLower.

Definition compareRule (command commandLower : string) : Intent :=
  if includes commandLower "compare" || includes commandLower " vs "
     || includes commandLower " versus "
  then
    let cleaned :=
      replaceFirst " vs " " "
        (replaceFirst "versus" " "
           (replaceFirst "compare" "" commandLower)) in
    let parts := split " and " cleaned in
    if (2 <=? List.length parts)%nat
    then
      let player1 := trim (removeStats (trim (nth 0 parts EmptyString))) in
      let player2 := trim (removeStats (trim (nth 1 parts EmptyString))) in
      mkIntent compare_players (Some player1) (Some player2) None
    else clubRule command commandLower
  else clubRule command commandLower.

Definition favoriteRules (command commandLower : string) : Intent :=
  let hasFavorite :=
    includes commandLower "favorite" || includes commandLower "favourite" in
  let isClub := includes commandLower "club" || includes commandLower "team" in
  if (includes commandLower "show" || includes commandLower "open"
      || includes commandLower "go to") && hasFavorite
  then intent show_favorites
  else if startsWith "favorite " commandLower
          && negb (includes commandLower "show favorite")
  then
    let name :=
      extractNameFromCommand commandLower
        ["favorite"; "club"; "team"; "player"; "the"] in
    if isClub
    then mkIntent add_club_favorite None None (Some (orElse name commandLower))
    else mkIntent add_player_favorite (Some (orElse name commandLower))
           None None
  else if includes commandLower "add" && hasFavorite
  then
    if includes commandLower "this club"
    then intent add_current_club_favorite
    else if includes commandLower "this player"
    then intent add_current_player_favorite
    else
      let name :=
        extractNameFromCommand commandLower
          ["add"; "to favorites"; "favorites"; "favorite"; "favourite";
           "club"; "team"; "player"; "the"] in
      if isClub
      then mkIntent add_club_favorite None None
             (Some (orElse name commandLower))
      else mkIntent add_player_favorite (Some (orElse name commandLower))
             None None
  else if includes commandLower "remove" && hasFavorite
  then
    if includes commandLower "this club"
    then mkIntent remove_club_favorite None None (Some "this")
    else if includes commandLower "this player"
    then mkIntent remove_player_favorite (Some "this") None None
    else
      let name :=
        extractNameFromCommand commandLower
          ["remove"; "from favorites"; "favorites"; "favorite"; "favourite";
           "club"; "team"; "player"; "the"] in
      if isClub
      then mkIntent remove_club_favorite None None
             (Some (orElse name commandLower))
      else mkIntent remove_player_favorite (Some (orElse name commandLower))
             None None
  else compareRule command commandLower.

Definition sectionRule (command commandLower : string) : Intent :=
  if includes commandLower "tell me" || includes commandLower "read"
     || includes commandLower "show me"
  then
    if includes commandLower "injuries" || includes commandLower "injury"
    then intent read_injuries
    else if includes commandLower "transfers"
            || includes commandLower "transfer"
    then intent read_transfers
    else if includes commandLower "achievements"
            || includes commandLower "achievement"
            || includes commandLower "honors"
            || includes commandLower "honours"
    then intent read_achievements
    else if includes commandLower "market value"
            || includes commandLower "market value history"
    then intent read_market_value
    else favoriteRules command commandLower
  else favoriteRules command commandLower.

Definition parseVoiceCommandLocal (command : string) : Intent :=
  let commandLower := trim (toLowerCase command) in
  if isStopCommand commandLower then intent stop_speaking
  else if includes commandLower "resume talking"
          || includes commandLower "start talking"
          || includes commandLower "start reading"
  then intent resume_speaking
  else sectionRule command commandLower.

End Parser.

(** ** Speech text, lookup results, timer callbacks *)

(** What is handed to [TTSManager.speak]: a literal remark, an error
    message wrapped by [readError], or one of the generated reports (whose
    wording plays no part in the control flow; each starts with a fixed
    heading, so none is blank). *)
Inductive Speech :=
| Say (text : string)
| ErrorText (errorMessage : string)
| PlayerStatsReport | ClubInfoReport | ComparisonReport | FavoritesReport
| InjuryReport | TransferReport | AchievementsReport | MarketValueReport.

(** [!text || text.trim() === ''] *)
Definition blank (text : Speech) : bool :=
  match text with
  | Say t => Str.isEmpty (Str.trim t)
  | _ => false
  end.

(** [searchResults]: the player is always an object on the path that
    assigns it; each optional section is [None] when the lookup gave [null],
    and otherwise the number of entries of its array (0 when the array is
    missing or empty, which the readers treat alike). *)
Record Results := mkResults {
  injuries : option nat;
  transfers : option nat;
  achievements : option nat;
  marketValue : option nat
}.

Inductive RestartOrigin := AfterNoSpeech | AfterEnd | AfterUtterance.

(** The callbacks given to [setTimeout]. *)
Inductive Task :=
| RestartTask (origin : RestartOrigin)   (* [restartTimeout = setTimeout(...)] *)
| SpeakTask (text : Speech)              (* in [TTSManager.speak] *)
| ReadResultsTask                        (* end of [searchPlayerStats] *)
| DisplayReadTask                        (* end of [displayResults] *)
| ReadComparisonTask                     (* in [displayComparison] *)
| ReadClubInfoTask                       (* in [showClubAchievements] *)
| ReadFavoritesTask (count : nat)        (* in [loadFavorites] *)
| PageLoadTask                           (* [startVoiceRecognitionImmediately] *)
| RetryLoadTask                          (* its retry when [recognition] is null *)
| ImmediateStartTask                     (* its delayed start *)
| AutoStartTask                          (* in [autoStartVoiceRecognition] *)
| InteractionTask.                       (* on [visibilitychange] *)

Definition isRestartTask (t : Task) : bool :=
  match t with RestartTask _ => true | _ => false end.

(** ** The page state *)

(** The script's global variables that bear on speech ([currentPage],
    [lastPlayerResult] and [lastClubResult] do not), the two fields of
    [TTSManager], and what the browser holds: the table of pending
    [setTimeout] callbacks with the id the next one gets, the utterances
    queued in [speechSynthesis] (the one in flight first) with its
    [speaking] flag, whether the recognition engine has a session open, and
    whether the [startOnInteraction] listeners are registered.  [narrated]
    is a trace: every utterance handed to [speechSynthesis.speak] so far. *)
Record State := mkState {
  isRecording : bool;
  recognition : bool;              (* [recognition] is not [null] *)
  currentSpeech : option Speech;
  searchResults : option Results;
  autoListening : bool;
  ttsMuted : bool;
  userInteracted : bool;
  isReadingAloud : bool;
  isRecognitionStarting : bool;
  isRecognitionStopping : bool;
  restartTimeout : option nat;     (* a timer id, or [null] *)
  isActive : bool;                 (* [TTSManager.isActive] *)
  currentUtterance : option Speech;  (* [TTSManager.currentUtterance] *)
  hasSynthesis : bool;             (* ['speechSynthesis' in window] *)
  timers : gmap nat Task;
  nextTimer : nat;
  synthQueue : list Speech;
  synthSpeaking : bool;
  recRunning : bool;
  armed : bool;
  narrated : list Speech
}.

(** Assignments to one variable. *)
Definition set_isRecording (v : bool) (s : State) : State :=
  mkState v (recognition s) (currentSpeech s) (searchResults s)
    (autoListening s) (ttsMuted s) (userInteracted s) (isReadingAloud s)
    (isRecognitionStarting s) (isRecognitionStopping s) (restartTimeout s)
    (isActive s) (currentUtterance s) (hasSynthesis s) (timers s)
    (nextTimer s) (synthQueue s) (synthSpeaking s) (recRunning s) (armed s)
    (narrated s).
Definition set_recognition (v : bool) (s : State) : State :=
  mkState (isRecording s) v (currentSpeech s) (searchResults s)
    (autoListening s) (ttsMuted s) (userInteracted s) (isReadingAloud s)
    (isRecognitionStarting s) (isRecognitionStopping s) (restartTimeout s)
    (isActive s) (currentUtterance s) (hasSynthesis s) (timers s)
    (nextTimer s) (synthQueue s) (synthSpeaking s) (recRunning s) (armed s)
    (narrated s).
Definition set_currentSpeech (v : option Speech) (s : State) : State :=
  mkState (isRecording s) (recognition s) v (searchResults s)
    (autoListening s) (ttsMuted s) (userInteracted s) (isReadingAloud s)
    (isRecognitionStarting s) (isRecognitionStopping s) (restartTimeout s)
    (isActive s) (currentUtterance s) (hasSynthesis s) (timers s)
    (nextTimer s) (synthQueue s) (synthSpeaking s) (recRunning s) (armed s)
    (narrated s).
Definition set_searchResults (v : option Results) (s : State) : State :=
  mkState (isRecording s) (recognition s) (currentSpeech s) v
    (autoListening s) (ttsMuted s) (userInteracted s) (isReadingAloud s)
    (isRecognitionStarting s) (isRecognitionStopping s) (restartTimeout s)
    (isActive s) (currentUtterance s) (hasSynthesis s) (timers s)
    (nextTimer s) (synthQueue s) (synthSpeaking s) (recRunning s) (armed s)
    (narrated s).
Definition set_autoListening (v : bool) (s : State) : State :=
  mkState (isRecording s) (recognition s) (currentSpeech s)
    (searchResults s) v (ttsMuted s) (userInteracted s) (isReadingAloud s)
    (isRecognitionStarting s) (isRecognitionStopping s) (restartTimeout s)
    (isActive s) (currentUtterance s) (hasSynthesis s) (timers s)
    (nextTimer s) (synthQueue s) (synthSpeaking s) (recRunning s) (armed s)
    (narrated s).
Definition set_ttsMuted (v : bool) (s : State) : State :=
  mkState (isRecording s) (recognition s) (currentSpeech s)
    (searchResults s) (autoListening s) v (userInteracted s)
    (isReadingAloud s) (isRecognitionStarting s) (isRecognitionStopping s)
    (restartTimeout s) (isActive s) (currentUtterance s) (hasSynthesis s)
    (timers s) (nextTimer s) (synthQueue s) (synthSpeaking s) (recRunning s)
    (armed s) (narrated s).
Definition set_userInteracted (v : bool) (s : State) : State :=
  mkState (isRecording s) (recognition s) (currentSpeech s)
    (searchResults s) (autoListening s) (ttsMuted s) v (isReadingAloud s)
    (isRecognitionStarting s) (isRecognitionStopping s) (restartTimeout s)
    (isActive s) (currentUtterance s) (hasSynthesis s) (timers s)
    (nextTimer s) (synthQueue s) (synthSpeaking s) (recRunning s) (armed s)
    (narrated s).
Definition set_isReadingAloud (v : bool) (s : State) : State :=
  mkState (isRecording s) (recognition s) (currentSpeech s)
    (searchResults s) (autoListening s) (ttsMuted s) (userInteracted s) v
    (isRecognitionStarting s) (isRecognitionStopping s) (restartTimeout s)
    (isActive s) (currentUtterance s) (hasSynthesis s) (timers s)
    (nextTimer s) (synthQueue s) (synthSpeaking s) (recRunning s) (armed s)
    (narrated s).
Definition set_isRecognitionStarting (v : bool) (s : State) : State :=
  mkState (isRecording s) (recognition s) (currentSpeech s)
    (searchResults s) (autoListening s) (ttsMuted s) (userInteracted s)
    (isReadingAloud s) v (isRecognitionStopping s) (restartTimeout s)
    (isActive s) (currentUtterance s) (hasSynthesis s) (timers s)
    (nextTimer s) (synthQueue s) (synthSpeaking s) (recRunning s) (armed s)
    (narrated s).
Definition set_isRecognitionStopping (v : bool) (s : State) : State :=
  mkState (isRecording s) (recognition s) (currentSpeech s)
    (searchResults s) (autoListening s) (ttsMuted s) (userInteracted s)
    (isReadingAloud s) (isRecognitionStarting s) v (restartTimeout s)
    (isActive s) (currentUtterance s) (hasSynthesis s) (timers s)
    (nextTimer s) (synthQueue s) (synthSpeaking s) (recRunning s) (armed s)
    (narrated s).
Definition set_restartTimeout (v : option nat) (s : State) : State :=
  mkState (isRecording s) (recognition s) (currentSpeech s)
    (searchResults s) (autoListening s) (ttsMuted s) (userInteracted s)
    (isReadingAloud s) (isRecognitionStarting s) (isRecognitionStopping s) v
    (isActive s) (currentUtterance s) (hasSynthesis s) (timers s)
    (nextTimer s) (synthQueue s) (synthSpeaking s) (recRunning s) (armed s)
    (narrated s).
Definition set_isActive (v : bool) (s : State) : State :=
  mkState (isRecording s) (recognition s) (currentSpeech s)
    (searchResults s) (autoListening s) (ttsMuted s) (userInteracted s)
    (isReadingAloud s) (isRecognitionStarting s) (isRecognitionStopping s)
    (restartTimeout s) v (currentUtterance s) (hasSynthesis s) (timers s)
    (nextTimer s) (synthQueue s) (synthSpeaking s) (recRunning s) (armed s)
    (narrated s).
Definition set_currentUtterance (v : option Speech) (s : State) : State :=
  mkState (isRecording s) (recognition s) (currentSpeech s)
    (searchResults s) (autoListening s) (ttsMuted s) (userInteracted s)
    (isReadingAloud s) (isRecognitionStarting s) (isRecognitionStopping s)
    (restartTimeout s) (isActive s) v (hasSynthesis s) (timers s)
    (nextTimer s) (synthQueue s) (synthSpeaking s) (recRunning s) (armed s)
    (narrated s).
Definition set_hasSynthesis (v : bool) (s : State) : State :=
  mkState (isRecording s) (recognition s) (currentSpeech s)
    (searchResults s) (autoListening s) (ttsMuted s) (userInteracted s)
    (isReadingAloud s) (isRecognitionStarting s) (isRecognitionStopping s)
    (restartTimeout s) (isActive s) (currentUtterance s) v (timers s)
    (nextTimer s) (synthQueue s) (synthSpeaking s) (recRunning s) (armed s)
    (narrated s).
Definition set_timers (v : gmap nat Task) (s : State) : State :=
  mkState (isRecording s) (recognition s) (currentSpeech s)
    (searchResults s) (autoListening s) (ttsMuted s) (userInteracted s)
    (isReadingAloud s) (isRecognitionStarting s) (isRecognitionStopping s)
    (restartTimeout s) (isActive s) (currentUtterance s) (hasSynthesis s) v
    (nextTimer s) (synthQueue s) (synthSpeaking s) (recRunning s) (armed s)
    (narrated s).
Definition set_nextTimer (v : nat) (s : State) : State :=
  mkState (isRecording s) (recognition s) (currentSpeech s)
    (searchResults s) (autoListening s) (ttsMuted s) (userInteracted s)
    (isReadingAloud s) (isRecognitionStarting s) (isRecognitionStopping s)
    (restartTimeout s) (isActive s) (currentUtterance s) (hasSynthesis s)
    (timers s) v (synthQueue s) (synthSpeaking s) (recRunning s) (armed s)
    (narrated s).
Definition set_synthQueue (v : list Speech) (s : State) : State :=
  mkState (isRecording s) (recognition s) (currentSpeech s)
    (searchResults s) (autoListening s) (ttsMuted s) (userInteracted s)
    (isReadingAloud s) (isRecognitionStarting s) (isRecognitionStopping s)
    (restartTimeout s) (isActive s) (currentUtterance s) (hasSynthesis s)
    (timers s) (nextTimer s) v (synthSpeaking s) (recRunning s) (armed s)
    (narrated s).
Definition set_synthSpeaking (v : bool) (s : State) : State :=
  mkState (isRecording s) (recognition s) (currentSpeech s)
    (searchResults s) (autoListening s) (ttsMuted s) (userInteracted s)
    (isReadingAloud s) (isRecognitionStarting s) (isRecognitionStopping s)
    (restartTimeout s) (isActive s) (currentUtterance s) (hasSynthesis s)
    (timers s) (nextTimer s) (synthQueue s) v (recRunning s) (armed s)
    (narrated s).
Definition set_recRunning (v : bool) (s : State) : State :=
  mkState (isRecording s) (recognition s) (currentSpeech s)
    (searchResults s) (autoListening s) (ttsMuted s) (userInteracted s)
    (isReadingAloud s) (isRecognitionStarting s) (isRecognitionStopping s)
    (restartTimeout s) (isActive s) (currentUtterance s) (hasSynthesis s)
    (timers s) (nextTimer s) (synthQueue s) (synthSpeaking s) v (armed s)
    (narrated s).
Definition set_armed (v : bool) (s : State) : State :=
  mkState (isRecording s) (recognition s) (currentSpeech s)
    (searchResults s) (autoListening s) (ttsMuted s) (userInteracted s)
    (isReadingAloud s) (isRecognitionStarting s) (isRecognitionStopping s)
    (restartTimeout s) (isActive s) (currentUtterance s) (hasSynthesis s)
    (timers s) (nextTimer s) (synthQueue s) (synthSpeaking s) (recRunning s)
    v (narrated s).
Definition set_narrated (v : list Speech) (s : State) : State :=
  mkState (isRecording s) (recognition s) (currentSpeech s)
    (searchResults s) (autoListening s) (ttsMuted s) (userInteracted s)
    (isReadingAloud s) (isRecognitionStarting s) (isRecognitionStopping s)
    (restartTimeout s) (isActive s) (currentUtterance s) (hasSynthesis s)
    (timers s) (nextTimer s) (synthQueue s) (synthSpeaking s) (recRunning s)
    (armed s) v.

(** The state when [DOMContentLoaded] has run: [initSpeechRecognition] has
    created the recogniser where the browser has one, and
    [startVoiceRecognitionImmediately] has set its first timer.  Timer ids
    are positive, so [if (restartTimeout)] tests for [null]. *)
Definition initial (supportsRecognition supportsSynthesis : bool) : State :=
  mkState false supportsRecognition None None false false false false false
    false None false None supportsSynthesis {[ 1 := PageLoadTask ]} 2 []
    false false false [].

(** ** Browser primitives *)

(** [setTimeout(task, _)]; the id it returns is [nextTimer] of the state it
    is applied to.  Delays are not modelled: a pending timer may fire at any
    later point. *)
Definition setTimeout (task : Task) (s : State) : State :=
  set_nextTimer (S (nextTimer s))
    (set_timers (<[ nextTimer s := task ]> (timers s)) s).

Definition clearTimeout (id : nat) (s : State) : State :=
  set_timers (delete id (timers s)) s.

(** [window.speechSynthesis.cancel()] *)
Definition synthCancel (s : State) : State :=
  set_synthSpeaking false (set_synthQueue [] s).

(** [window.speechSynthesis.speak(u)]: [u] joins the engine's queue. *)
Definition synthSpeak (u : Speech) (s : State) : State :=
  set_narrated (narrated s ++ [u]) (set_synthQueue (synthQueue s ++ [u]) s).

(** An object reference or [null] used as a condition. *)
Definition truthy {A : Type} (o : option A) : bool :=
  match o with Some _ => true | None => false end.

(** ** Speech input *)

(** [safeStartRecognition]: [recognition.start()] throws
    [InvalidStateError] when a session is already open. *)
Definition safeStartRecognition (s : State) : bool * State :=
  if negb (recognition s) then (false, s)
  else if isRecording s || isRecognitionStarting s || isRecognitionStopping s
  then (false, s)
  else
    let s := set_isRecognitionStarting true s in
    if recRunning s
    then (true, set_isRecording true (set_isRecognitionStarting false s))
    else (true, set_recRunning true s).

(** [if (restartTimeout) clearTimeout(restartTimeout);
     restartTimeout = setTimeout(..., _)] *)
Definition scheduleRestart (origin : RestartOrigin) (s : State) : State :=
  let s := match restartTimeout s with
           | Some id => clearTimeout id s
           | None => s
           end in
  set_restartTimeout (Some (nextTimer s)) (setTimeout (RestartTask origin) s).

(** The body of the three restart callbacks; the one set on [no-speech]
    does not test [recognition] itself. *)
Definition restartTask (origin : RestartOrigin) (s : State) : State :=
  if autoListening s && negb (isReadingAloud s) && negb (isRecording s)
     && negb (isRecognitionStarting s) && negb (isRecognitionStopping s)
     && match origin with AfterNoSpeech => true | _ => recognition s end
  then snd (safeStartRecognition s)
  else s.

(** ** Speech output *)

(** [TTSManager.speak(text, interrupt)] up to its [setTimeout]. *)
Definition speak (text : Speech) (interrupt : bool) (s : State) : State :=
  if ttsMuted s && negb interrupt then s
  else if blank text then s
  else
    let s := if negb (userInteracted s) then set_userInteracted true s
             else s in
    if hasSynthesis s
    then
      let s := if interrupt && truthy (currentSpeech s)
               then synthCancel s else s in
      setTimeout (SpeakTask text) s
    else s.

(** The callback of that [setTimeout].  [speechSynthesis.speak] does not
    throw, so the [catch] around it is left out. *)
Definition speakTask (text : Speech) (s : State) : State :=
  if ttsMuted s || negb (userInteracted s) then s
  else
    let s := set_currentUtterance (Some text) s in
    let s := synthSpeak text s in
    set_currentSpeech (Some text) s.

(** [currentUtterance.onstart] *)
Definition utteranceOnStart (s : State) : State :=
  set_isReadingAloud true (set_isActive true s).

(** [currentUtterance.onend] *)
Definition utteranceOnEnd (s : State) : State :=
  let s := set_currentUtterance None s in
  let s := set_isActive false s in
  let s := set_isReadingAloud false s in
  let s := set_currentSpeech None s in
  if autoListening s && recognition s && negb (isRecording s)
     && negb (isRecognitionStarting s) && negb (isRecognitionStopping s)
  then scheduleRestart AfterUtterance s
  else s.

(** [currentUtterance.onerror] *)
Definition utteranceOnError (notAllowed : bool) (s : State) : State :=
  let s := set_currentUtterance None s in
  let s := set_isActive false s in
  let s := set_isReadingAloud false s in
  let s := set_currentSpeech None s in
  if notAllowed then set_userInteracted false s else s.

(** [stopReading] *)
Definition stopReading (s : State) : State :=
  if hasSynthesis s
  then
    let s := synthCancel s in
    let s := set_currentSpeech None s in
    let s := set_isReadingAloud false s in
    let s := set_ttsMuted true s in
    let s := set_isActive false s in
    set_currentUtterance None s
  else s.

(** [TTSManager.readError] *)
Definition readError (errorMessage : string) (s : State) : State :=
  if ttsMuted s then s else speak (ErrorText errorMessage) false s.

(** [TTSManager.readPlayerStats(searchResults)] *)
Definition readPlayerStats (r : option Results) (s : State) : State :=
  match r with
  | None => speak (Say "No player data available to read.") false s
  | Some _ =>
      if ttsMuted s then s
      else
        let s := if negb (userInteracted s) then set_userInteracted true s
                 else s in
        speak PlayerStatsReport true s
  end.

(** [readResultsAloud] *)
Definition readResultsAloud (s : State) : State :=
  if isReadingAloud s || (hasSynthesis s && synthSpeaking s) || isActive s
  then s
  else match searchResults s with
       | None => speak (Say "No results to read") false s
       | Some _ =>
           if ttsMuted s then s
           else
             let s := if negb (userInteracted s)
                      then set_userInteracted true s else s in
             readPlayerStats (searchResults s) s
       end.

(** [readInjuriesAloud], [readTransfersAloud], [readAchievementsAloud],
    [readMarketValueAloud]: the same function up to the two texts. *)
Definition readSectionAloud (none : string) (report : Speech)
    (entries : nat) (s : State) : State :=
  if ttsMuted s || negb (userInteracted s) then s
  else if (entries =? 0)%nat then speak (Say none) false s
  else speak report true s.

Definition readInjuriesAloud :=
  readSectionAloud "No injury history available for this player."
    InjuryReport.
Definition readTransfersAloud :=
  readSectionAloud "No transfer history available for this player."
    TransferReport.
Definition readAchievementsAloud :=
  readSectionAloud "No achievements available for this player."
    AchievementsReport.
Definition readMarketValueAloud :=
  readSectionAloud "No market value history available for this player."
    MarketValueReport.

(** [TTSManager.readComparison] and [TTSManager.readClubInfo], on the
    paths that call them (both players, respectively the club, are
    objects). *)
Definition readComparison (s : State) : State :=
  if ttsMuted s || negb (userInteracted s) then s
  else speak ComparisonReport true s.

Definition readClubInfo (s : State) : State :=
  if ttsMuted s || negb (userInteracted s) then s
  else speak ClubInfoReport true s.

(** [TTSManager.readFavorites(favorites)] *)
Definition readFavorites (count : nat) (s : State) : State :=
  if ttsMuted s || negb (userInteracted s) then s
  else if (count =? 0)%nat
  then speak (Say "You have no favorites saved yet.") false s
  else speak FavoritesReport true s.

(** [loadFavorites], with the length of the stored list *)
Definition loadFavorites (count : nat) (s : State) : State :=
  if userInteracted s && negb (ttsMuted s)
  then setTimeout (ReadFavoritesTask count) s
  else s.

(** ** Recognition callbacks *)

(** [recognition.onstart] *)
Definition recognitionOnStart (s : State) : State :=
  let s := set_isRecording true s in
  let s := set_isRecognitionStarting false s in
  set_isRecognitionStopping false s.

Inductive RecognitionError :=
| aborted | not_allowed | service_not_allowed | no_speech | audio_capture
| other_error.

(** [recognition.onerror] *)
Definition recognitionOnError (error : RecognitionError) (s : State) : State :=
  let s := set_isRecording false s in
  let s := set_isRecognitionStarting false s in
  match error with
  | aborted =>
      let s := set_isRecording false s in
      set_isRecognitionStarting false s
  | not_allowed | service_not_allowed =>
      let s :=
        speak (Say "Microphone permission is required. Please allow access in your browser settings and refresh the page.")
          false s in
      let s := set_autoListening false s in
      set_isRecognitionStarting false s
  | no_speech =>
      if autoListening s && negb (isReadingAloud s)
         && negb (isRecognitionStarting s) && negb (isRecognitionStopping s)
      then scheduleRestart AfterNoSpeech s
      else s
  | audio_capture =>
      let s := set_autoListening false s in
      set_isRecognitionStarting false s
  | other_error => set_isRecognitionStarting false s
  end.

(** [recognition.onend]; the engine's session is over. *)
Definition recognitionOnEnd (s : State) : State :=
  let s := set_recRunning false s in
  let s := set_isRecording false s in
  let s := set_isRecognitionStarting false s in
  let s := set_isRecognitionStopping false s in
  if autoListening s && recognition s && negb (isReadingAloud s)
     && negb (isRecognitionStarting s) && negb (isRecognitionStopping s)
  then scheduleRestart AfterEnd s
  else s.

(** The stop test of [recognition.onresult] (narrower than the parser's). *)
Definition isStopTranscript (cmdLower : string) : bool :=
  String.eqb cmdLower "stop"
  || Str.includes cmdLower "stop talking"
  || Str.includes cmdLower "stop reading"
  || Str.includes cmdLower "be quiet"
  || Str.includes cmdLower "shut up".

(** [recognition.onresult] for the last result of the event, followed by
    [processVoiceCommand] up to its first [await] (the request to the remote
    parser). *)
Definition recognitionOnResult (isFinal : bool) (rawTranscript : string)
    (s : State) : State :=
  let s := set_userInteracted true s in
  if negb isFinal then s
  else
    let transcript := Str.trim rawTranscript in
    if Str.isEmpty transcript then s
    else
      let s := if isReadingAloud s then stopReading s else s in
      if isStopTranscript (Str.toLowerCase transcript) then stopReading s
      else if isReadingAloud s then stopReading s else s.

(** ** Lookups *)

(** [searchPlayerStats] up to its first [await]. *)
Definition searchPlayerStatsBegin (s : State) : State :=
  set_ttsMuted false (set_userInteracted true s).

Inductive SearchOutcome :=
| NoPlayers (playerName : string)     (* an empty result list *)
| SearchFailed (errorMessage : string) (* anything thrown on the way *)
| Found (r : Results).

(** The rest of [searchPlayerStats], once the lookups have answered. *)
Definition searchPlayerStatsEnd (o : SearchOutcome) (s : State) : State :=
  match o with
  | NoPlayers playerName =>
      readError ("No players found matching " +:+ playerName) s
  | SearchFailed errorMessage => readError errorMessage s
  | Found r =>
      let s := set_ttsMuted false s in
      let s := set_searchResults (Some r) s in
      let s := setTimeout DisplayReadTask s in
      setTimeout ReadResultsTask s
  end.

(** The rest of [comparePlayers]: a failure is shown, not spoken. *)
Definition comparePlayersEnd (ok : bool) (s : State) : State :=
  if ok then setTimeout ReadComparisonTask (set_ttsMuted false s) else s.

(** The rest of [showClubAchievements]. *)
Definition showClubAchievementsEnd (ok : bool) (s : State) : State :=
  if ok then setTimeout ReadClubInfoTask (set_ttsMuted false s) else s.

(** ** Command dispatch *)

Definition specialActions : list Action :=
  [stop_speaking; resume_speaking; read_injuries; read_transfers;
   read_achievements; read_market_value; add_player_favorite;
   add_club_favorite; add_current_player_favorite;
   add_current_club_favorite; remove_player_favorite; remove_club_favorite;
   show_favorites].

(** [x?.trim()] used as a condition. *)
Definition normalized (x : option string) : bool :=
  match x with
  | Some t => negb (Str.isEmpty (Str.trim t))
  | None => false
  end.

(** The intent [processVoiceCommand] acts on: the remote parser's answer
    when there is one, except that a special action of the local parse
    wins. *)
Definition chosenIntent (transcript : string) (remote : option Intent)
  : Intent :=
  let localIntent := Parser.parseVoiceCommandLocal transcript in
  if existsb (Action_eqb (action localIntent)) specialActions
  then localIntent
  else default localIntent remote.

Definition readSection (field : Results -> option nat)
    (reader : nat -> State -> State) (none : string) (s : State) : State :=
  match searchResults s ≫= field with
  | Some entries => reader entries s
  | None => speak (Say none) false s
  end.

(** The [switch] of [processVoiceCommand]; [favorites] is the length of the
    stored favourites list, read by [loadFavorites].  The favourites store
    and the page shown are not part of this state, so the branches that only
    touch them leave it as it is; so do the beginnings of [comparePlayers]
    and [showClubAchievements].  The page's elements are taken to exist, so
    no handler throws and the [catch] of [processVoiceCommand] is not
    reached. *)
Definition dispatch (data : Intent) (favorites : nat) (s : State) : State :=
  match action data with
  | stop_speaking => stopReading (set_ttsMuted true s)
  | resume_speaking =>
      let s := set_ttsMuted false s in
      if truthy (searchResults s) then readResultsAloud s else s
  | read_injuries =>
      readSection injuries readInjuriesAloud
        "No injuries data available. Please search for a player first." s
  | read_transfers =>
      readSection transfers readTransfersAloud
        "No transfers data available. Please search for a player first." s
  | read_achievements =>
      readSection achievements readAchievementsAloud
        "No achievements data available. Please search for a player first." s
  | read_market_value =>
      readSection marketValue readMarketValueAloud
        "No market value data available. Please search for a player first." s
  | search_player =>
      if normalized (playerName data) then searchPlayerStatsBegin s else s
  | compare_players => s
  | club_achievements | club_info => s
  | show_favorites => loadFavorites favorites s
  | add_player_favorite | add_club_favorite
  | add_current_player_favorite | add_current_club_favorite
  | remove_player_favorite | remove_club_favorite => s
  | other_action =>
      if normalized (playerName data) then searchPlayerStatsBegin s
      else speak (Say "Sorry, I could not understand that command. Please try again.")
             false s
  end.

(** ** Starting to listen *)

Inductive Permission :=
| Granted
| Denied        (* [NotAllowedError], [PermissionDeniedError] *)
| NoMicrophone  (* [NotFoundError] *)
| OtherFailure.

(** The three callers that [await requestMicrophonePermission()]. *)
Inductive Caller := PageLoad | AutoStart | Toggle.

(** The [catch] of [requestMicrophonePermission]. *)
Definition permissionRefused (p : Permission) (s : State) : State :=
  match p with
  | Denied =>
      speak (Say "Microphone permission is required for voice commands. Please allow access in your browser settings.")
        false s
  | _ => s
  end.

(** What each caller does when the permission request has answered. *)
Definition afterPermission (c : Caller) (p : Permission) (s : State)
  : State :=
  let s := permissionRefused p s in
  let granted := match p with Granted => true | _ => false end in
  match c with
  | PageLoad =>
      let s := if granted then setTimeout ImmediateStartTask s else s in
      set_armed true s
  | AutoStart => if granted then setTimeout AutoStartTask s else s
  | Toggle =>
      if granted
      then
        let s := set_autoListening true s in
        let '(ok, s) := safeStartRecognition s in
        if ok then s else set_autoListening false s
      else s
  end.

(** [startOnInteraction]; [autoStartVoiceRecognition] changes nothing
    before its [await]. *)
Definition startOnInteraction (s : State) : State :=
  if negb (isRecording s) && negb (isRecognitionStarting s)
  then set_userInteracted true s
  else s.

(** [toggleVoiceRecording] up to its [await]; [stopThrows] says whether
    [recognition.stop()] throws. *)
Definition toggleVoiceRecording (stopThrows : bool) (s : State) : State :=
  if negb (recognition s) then s
  else if isRecording s || isRecognitionStarting s
  then
    let s := set_autoListening false s in
    let s := set_isRecognitionStopping true s in
    if stopThrows
    then
      let s := set_isRecording false s in
      let s := set_isRecognitionStarting false s in
      set_isRecognitionStopping false s
    else s
  else s.

(** ** Timers *)

Definition runTask (t : Task) (s : State) : State :=
  match t with
  | RestartTask origin => restartTask origin s
  | SpeakTask text => speakTask text s
  | ReadResultsTask =>
      if negb (isReadingAloud s) && negb (ttsMuted s)
      then readResultsAloud s else s
  | DisplayReadTask => readResultsAloud s
  | ReadComparisonTask => readComparison s
  | ReadClubInfoTask => readClubInfo s
  | ReadFavoritesTask count => readFavorites count s
  | PageLoadTask =>
      if negb (recognition s) then setTimeout RetryLoadTask s
      else if negb (isRecording s) && negb (isRecognitionStarting s)
      then set_autoListening true s
      else set_armed true s
  | RetryLoadTask => setTimeout PageLoadTask s
  | ImmediateStartTask =>
      let '(ok, s) := safeStartRecognition s in
      if ok && userInteracted s
      then speak (Say "Voice recognition is now active. You can speak your commands.")
             false s
      else s
  | AutoStartTask =>
      if negb (isRecording s) && negb (isRecognitionStarting s)
         && negb (isRecognitionStopping s) && recognition s
      then
        let s := set_autoListening true s in
        let '(ok, s) := safeStartRecognition s in
        if ok then s else set_autoListening false s
      else s
  | InteractionTask => startOnInteraction s
  end.

(** ** Events *)

(** What the event loop can deliver: timers, user actions, the callbacks of
    the two engines, and the resumption of a handler after an [await] (the
    permission request, the remote parse, the lookups).  A resumption is an
    event of its own, so that anything may happen between a handler's two
    halves; the model does not require it to follow its first half, which
    only adds behaviours. *)
Inductive Event :=
| TimerFire (id : nat)
| PermissionAnswer (c : Caller) (p : Permission)
| Interaction
| VisibilityChange (hidden : bool)
| ToggleVoice (stopThrows : bool)
| StopButton
| SubmitSearch (playerName : string)
| OpenFavorites (favorites : nat)
| RecStart
| RecResult (isFinal : bool) (transcript : string)
| RecError (error : RecognitionError)
| RecEnd
| CommandParsed (transcript : string) (remote : option Intent)
    (favorites : nat)
| SearchDone (o : SearchOutcome)
| CompareDone (ok : bool)
| ClubDone (ok : bool)
| UttStart
| UttEnd
| UttError (notAllowed : bool).

(** One turn of the event loop.  The browser takes a timer out of its table
    before it runs the callback; the synthesis engine reports the start of
    the utterance at the head of its queue, and drops it when it ends or
    fails. *)
Definition step (s : State) (e : Event) : State :=
  match e with
  | TimerFire id =>
      match timers s !! id with
      | Some t => runTask t (clearTimeout id s)
      | None => s
      end
  | PermissionAnswer c p => afterPermission c p s
  | Interaction => if armed s then startOnInteraction s else s
  | VisibilityChange hidden =>
      if armed s && negb hidden && negb (isRecording s)
         && negb (isRecognitionStarting s)
      then setTimeout InteractionTask s else s
  | ToggleVoice stopThrows => toggleVoiceRecording stopThrows s
  | StopButton => stopReading s
  | SubmitSearch playerName =>
      let s := set_userInteracted true s in
      if Str.isEmpty (Str.trim playerName) then s
      else searchPlayerStatsBegin s
  | OpenFavorites favorites => loadFavorites favorites s
  | RecStart => recognitionOnStart s
  | RecResult isFinal transcript => recognitionOnResult isFinal transcript s
  | RecError error => recognitionOnError error s
  | RecEnd => recognitionOnEnd s
  | CommandParsed transcript remote favorites =>
      dispatch (chosenIntent transcript remote) favorites s
  | SearchDone o => searchPlayerStatsEnd o s
  | CompareDone ok => comparePlayersEnd ok s
  | ClubDone ok => showClubAchievementsEnd ok s
  | UttStart =>
      match synthQueue s with
      | [] => s
      | _ :: _ => utteranceOnStart (set_synthSpeaking true s)
      end
  | UttEnd =>
      utteranceOnEnd
        (set_synthSpeaking false (set_synthQueue (tail (synthQueue s)) s))
  | UttError notAllowed =>
      utteranceOnError notAllowed
        (set_synthSpeaking false (set_synthQueue (tail (synthQueue s)) s))
  end.

Definition run (s : State) (trace : list Event) : State :=
  foldl step s trace.

(** The states the page can be in. *)
Definition reachable (s : State) : Prop :=
  exists supportsRecognition supportsSynthesis trace,
    s = run (initial supportsRecognition supportsSynthesis) trace.

(** ** Vocabulary of the statements *)

(** A needle that neither starts nor ends with white space survives
    [trim]. *)
Definition headNonSpace (p : string) : bool :=
  match p with
  | String c _ => negb (Str.isSpace c)
  | EmptyString => false
  end.

Fixpoint lastNonSpace (p : string) : bool :=
  match p with
  | EmptyString => false
  | String c EmptyString => negb (Str.isSpace c)
  | String _ p' => lastNonSpace p'
  end.

(** The phrases of the parser's stop rule. *)
Definition stopPhrases : list string :=
  ["stop talking"; "stop reading"; "be quiet"; "shut up"; "quiet"].

(** The words of an utterance, split at white space, and the test that one
    of them is [w]: what it means for an utterance to contain [w] as a whole
    word. *)
Fixpoint wordsFrom (cur s : string) : list string :=
  match s with
  | EmptyString => [cur]
  | String c s' =>
      if Str.isSpace c then cur :: wordsFrom EmptyString s'
      else wordsFrom (cur +:+ String c EmptyString) s'
  end.

Definition hasWord (w s : string) : bool :=
  existsb (String.eqb w) (wordsFrom EmptyString s).

(** The timer table is well formed: ids already handed out are below
    [nextTimer], and a pending restart callback is the one [restartTimeout]
    names. *)
Definition timersOk (s : State) : Prop :=
  (forall id t, timers s !! id = Some t -> id < nextTimer s) /\
  (forall id o, timers s !! id = Some (RestartTask o) ->
                restartTimeout s = Some id) /\
  (forall id, restartTimeout s = Some id -> id < nextTimer s).

(** The number of pending restart callbacks. *)
Definition pendingRestarts (s : State) : nat :=
  List.length (filter (fun kv => isRestartTask kv.2 = true)
                 (map_to_list (timers s))).

(** The events that clear [ttsMuted]: a player search being started (from
    the form or from a dispatched intent), a [resume_speaking] intent, and a
    lookup of any kind completing with a result. *)
Definition unmutes (e : Event) : bool :=
  match e with
  | SubmitSearch playerName => negb (Str.isEmpty (Str.trim playerName))
  | CommandParsed transcript remote _ =>
      let data := chosenIntent transcript remote in
      match action data with
      | resume_speaking => true
      | search_player | other_action => normalized (playerName data)
      | _ => false
      end
  | SearchDone (Found _) => true
  | CompareDone ok | ClubDone ok => ok
  | _ => false
  end.

(** Output is silenced: muted, with the narration trace still [log]; and,
    where [idle] is set, nothing is held by the synthesis engine and no
    utterance is being read. *)
Definition Hushed (log : list Speech) (idle : bool) (s : State) : Prop :=
  ttsMuted s = true /\ narrated s = log /\
  (idle = true -> synthQueue s = [] /\ isReadingAloud s = false).

(** The intents that ask for one section of the last result to be read. *)
Definition sectionReads : list Action :=
  [read_injuries; read_transfers; read_achievements; read_market_value].

(** * The rest of the page *)

(** ** Invariants of the reachable states *)

(** The input is never listening and starting at once. *)
Definition PhaseOk (s : State) : Prop :=
  isRecording s && isRecognitionStarting s = false.

(** The two "speaking" flags agree. *)
Definition SpeakingAgree (s : State) : Prop :=
  isActive s = isReadingAloud s.

(** The synthesis engine holds nothing and nothing is being read. *)
Definition EngineIdle (s : State) : Prop :=
  synthQueue s = [] /\ isReadingAloud s = false /\ currentSpeech s = None.

Definition isSpeakTask (t : Task) : bool :=
  match t with SpeakTask _ => true | _ => false end.

(** While muted the engine is idle; and where the browser has no synthesis
    engine it is always idle, nothing has ever been narrated and no
    utterance is waiting for its timer. *)
Definition Quiet (s : State) : Prop :=
  (ttsMuted s = true -> EngineIdle s) /\
  (hasSynthesis s = false ->
   EngineIdle s /\ narrated s = []
   /\ forall id t, timers s !! id = Some t -> isSpeakTask t = false).

(** The timer callbacks that start the recogniser for the first time (the
    page-load chain and the delayed start after a permission answer). *)
Definition isStarter (t : Task) : bool :=
  match t with
  | PageLoadTask | RetryLoadTask | ImmediateStartTask | AutoStartTask => true
  | _ => false
  end.

(** Listening is switched off: auto-listening is off, the engine has no
    session, and no first-start callback is pending. *)
Definition ListeningOff (s : State) : Prop :=
  autoListening s = false /\ recRunning s = false
  /\ forall id t, timers s !! id = Some t -> isStarter t = false.

Definition isPermissionAnswer (e : Event) : bool :=
  match e with PermissionAnswer _ _ => true | _ => false end.

(** ** Shape of the parser's results *)




(** A string in which white space is collapsed: every white-space character
    is a single blank that follows a character that is not white space (or,
    with [inRun] unset, starts the string). *)
Fixpoint collapsedFrom (inRun : bool) (s : string) : bool :=
  match s with
  | EmptyString => true
  | String c s' =>
      if Str.isSpace c
      then negb inRun && Ascii.eqb c " " && collapsedFrom true s'
      else collapsedFrom false s'
  end.

(** The string is empty or starts with a character that is not white
    space. *)
Definition headOk (s : string) : bool :=
  match s with
  | EmptyString => true
  | String c _ => negb (Str.isSpace c)
  end.

(** ** The favourites store *)

Module Favorites.

Inductive FavoriteType := player | club.

Definition FavoriteType_eqb (a b : FavoriteType) : bool :=
  match a, b with
  | player, player | club, club => true
  | _, _ => false
  end.

(** An entry of the stored array, as [getFavorites] returns it (an entry
    without a [type] is given the type ['player']); a field the object does
    not have is [None].  Ids and names are strings. *)
Record Favorite := mkFavorite {
  type : FavoriteType;
  player_id : option string;
  player_name : option string;
  club_id : option string;
  club_name : option string;
  country : option string;
  added_at : string
}.

(** [a === b] on a field that may be missing. *)
Definition same (a b : option string) : bool :=
  match a, b with
  | Some x, Some y => String.eqb x y
  | None, None => true
  | _, _ => false
  end.

(** [f.type === 'player' && f.player_id === playerId] *)
Definition isPlayer (playerId : string) (f : Favorite) : bool :=
  FavoriteType_eqb (type f) player && same (player_id f) (Some playerId).

(** [f.type === 'club' && f.club_id === clubId] *)
Definition isClub (clubId : string) (f : Favorite) : bool :=
  FavoriteType_eqb (type f) club && same (club_id f) (Some clubId).

(** [favorites.splice(favorites.findIndex(p), 1)] when the index is found *)
Fixpoint spliceFirst (p : Favorite -> bool) (favorites : list Favorite)
  : list Favorite :=
  match favorites with
  | [] => []
  | f :: rest => if p f then rest else f :: spliceFirst p rest
  end.

(** [toggleFavorite(playerId, playerName)]: the list it saves, given the
    stored list, the club name it reads off [searchResults] and the time. *)
Definition toggleFavorite (playerId playerName clubName now : string)
    (favorites : list Favorite) : list Favorite :=
  if existsb (isPlayer playerId) favorites
  then spliceFirst (isPlayer playerId) favorites
  else favorites ++
       [mkFavorite player (Some playerId) (Some playerName) None
          (Some clubName) None now].

(** [toggleClubFavorite(clubId, clubName)] *)
Definition toggleClubFavorite (clubId clubName now : string)
    (favorites : list Favorite) : list Favorite :=
  if existsb (isClub clubId) favorites
  then spliceFirst (isClub clubId) favorites
  else favorites ++
       [mkFavorite club None None (Some clubId) (Some clubName) None now].

(** [removeFavorite(id, type)] *)
Definition removeFavorite (id : string) (type : FavoriteType)
    (favorites : list Favorite) : list Favorite :=
  List.filter
    (fun f => match type with
              | player => negb (isPlayer id f)
              | club => negb (isClub id f)
              end)
    favorites.

(** The test of [addFavoriteEntry]: an entry of the same type with the same
    id. *)
Definition sameEntry (entry f : Favorite) : bool :=
  match type entry, type f with
  | player, player => same (player_id f) (player_id entry)
  | club, club => same (club_id f) (club_id entry)
  | _, _ => false
  end.

(** [addFavoriteEntry(entry)] *)
Definition addFavoriteEntry (entry : Favorite) (favorites : list Favorite)
  : list Favorite :=
  if existsb (sameEntry entry) favorites then favorites
  else favorites ++ [entry].

(** [f.player_name?.toLowerCase() === name.toLowerCase()] *)
Definition namedLike (field : Favorite -> option string) (name : string)
    (f : Favorite) : bool :=
  match field f with
  | Some n => String.eqb (Str.toLowerCase n) (Str.toLowerCase name)
  | None => false
  end.

(** [removePlayerFavoriteByName(name)] for a name that is neither empty nor
    ["this"]: when nothing matches, nothing is saved. *)
Definition removePlayerFavoriteByName (name : string)
    (favorites : list Favorite) : list Favorite :=
  let filtered :=
    List.filter
      (fun f => negb (FavoriteType_eqb (type f) player
                      && namedLike player_name name f)) favorites in
  if (List.length filtered =? List.length favorites)%nat then favorites
  else filtered.

(** [removeClubFavoriteByName(name)], likewise. *)
Definition removeClubFavoriteByName (name : string)
    (favorites : list Favorite) : list Favorite :=
  let filtered :=
    List.filter
      (fun f => negb (FavoriteType_eqb (type f) club
                      && namedLike club_name name f)) favorites in
  if (List.length filtered =? List.length favorites)%nat then favorites
  else filtered.

(** [lastPlayerResult], [lastClubResult.club]: the fields the favourites
    use. *)
Record Entity := mkEntity { id : string; name : string }.

(** [addCurrentPlayerFavorite()] *)
Definition addCurrentPlayerFavorite (lastPlayerResult : option Entity)
    (clubName now : string) (favorites : list Favorite) : list Favorite :=
  match lastPlayerResult with
  | None => favorites
  | Some p => toggleFavorite (id p) (name p) clubName now favorites
  end.

(** [addCurrentClubFavorite()], with [lastClubResult?.club] *)
Definition addCurrentClubFavorite (lastClub : option Entity) (now : string)
    (favorites : list Favorite) : list Favorite :=
  match lastClub with
  | None => favorites
  | Some c => toggleClubFavorite (id c) (name c) now favorites
  end.

(** What identifies an entry: its type with the id of that type. *)
Definition key (f : Favorite) : FavoriteType * option string :=
  (type f, match type f with player => player_id f | club => club_id f end).

End Favorites.

(** ** The favourites report *)

Module Report.
Import Favorites.

(** [`${n}`] for a count. *)
Definition decimal (n : nat) : string :=
  DecimalString.NilEmpty.string_of_uint (Nat.to_uint n).

(** [x || d] on a field that may be missing or empty. *)
Definition orDefault (x : option string) (d : string) : string :=
  match x with
  | Some t => if Str.isEmpty t then d else t
  | None => d
  end.

Definition isType (t : FavoriteType) (f : Favorite) : bool :=
  FavoriteType_eqb (type f) t.

(** The [forEach] over the favourite players, from index [idx] on. *)
Fixpoint playerLines (idx : nat) (playerFavorites : list Favorite) : string :=
  match playerFavorites with
  | [] => ""
  | fav :: rest =>
      let name := orDefault (player_name fav) "Unknown player" in
      let club := orDefault (club_name fav) "" in
      (if negb (Str.isEmpty club)
       then "Player " +:+ decimal (idx + 1) +:+ ": " +:+ name +:+ " from "
            +:+ club +:+ ". "
       else "Player " +:+ decimal (idx + 1) +:+ ": " +:+ name +:+ ". ")
      +:+ playerLines (S idx) rest
  end.

(** The [forEach] over the favourite clubs. *)
Fixpoint clubLines (idx : nat) (clubFavorites : list Favorite) : string :=
  match clubFavorites with
  | [] => ""
  | fav :: rest =>
      let name := orDefault (club_name fav) "Unknown club" in
      ("Club " +:+ decimal (idx + 1) +:+ ": " +:+ name +:+ ". ")
      +:+ clubLines (S idx) rest
  end.

Definition plural (n : nat) : string := if (1 <? n)%nat then "s" else "".

(** The text [TTSManager.readFavorites] builds for a list that is not
    empty (what [FavoritesReport] stands for). *)
Definition favoritesText (favorites : list Favorite) : string :=
  let playerFavorites := List.filter (isType player) favorites in
  let clubFavorites := List.filter (isType club) favorites in
  "Your Favorites List. "
  +:+ (if (0 <? List.length playerFavorites)%nat
       then "You have " +:+ decimal (List.length playerFavorites)
            +:+ " favorite player" +:+ plural (List.length playerFavorites)
            +:+ ". " +:+ playerLines 0 playerFavorites
       else "")
  +:+ (if (0 <? List.length clubFavorites)%nat
       then "You have " +:+ decimal (List.length clubFavorites)
            +:+ " favorite club" +:+ plural (List.length clubFavorites)
            +:+ ". " +:+ clubLines 0 clubFavorites
       else "")
  +:+ "End of favorites list. ".

End Report.

(** * Properties *)

(** ** Facts about the string primitives *)

Section StringFacts.
Import Str.

Lemma startsWith_map (f : ascii -> ascii) (p s : string) :
  startsWith p s = true -> startsWith (map f p) (map f s) = true.
Proof.
  revert s; induction p as [|a p IH]; intros [|b s]; simpl; try easy.
  intros [Hab Hps]%andb_prop.
  apply Ascii.eqb_eq in Hab; subst b.
  rewrite Ascii.eqb_refl; simpl; auto.
Qed.

Lemma includes_map (f : ascii -> ascii) (s p : string) :
  includes s p = true -> includes (map f s) (map f p) = true.
Proof.
  induction s as [|c s IH]; simpl.
  - rewrite orb_false_r. intros H. apply (startsWith_map f) in H.
    simpl in H. now rewrite H.
  - intros [H|H]%orb_prop.
    + apply (startsWith_map f) in H. simpl in H. now rewrite H.
    + rewrite (IH H). apply orb_true_r.
Qed.

Lemma includes_toLowerCase (s p : string) :
  toLowerCase p = p ->
  includes s p = true -> includes (toLowerCase s) p = true.
Proof.
  intros Hp H. rewrite <- Hp. now apply includes_map.
Qed.


Lemma includes_nonempty (p s : string) :
  headNonSpace p = true -> includes s p = true -> isEmpty s = false.
Proof.
  destruct s; simpl; [|easy].
  rewrite orb_false_r. destruct p; simpl; easy.
Qed.

Lemma includes_trimStart (p s : string) :
  headNonSpace p = true ->
  includes s p = true -> includes (trimStart s) p = true.
Proof.
  intros Hp. induction s as [|c s IH]; [easy|].
  intros H. cbn [trimStart]. destruct (isSpace c) eqn:Hc; [|exact H].
  apply IH. cbn [includes] in H. apply orb_prop in H as [H|H]; [|exact H].
  destruct p as [|a p]; [easy|]. simpl in Hp, H.
  apply andb_prop in H as [Hac _]. apply Ascii.eqb_eq in Hac; subst a.
  rewrite Hc in Hp. discriminate.
Qed.

Lemma startsWith_trimEnd (p s : string) :
  lastNonSpace p = true ->
  startsWith p s = true -> startsWith p (trimEnd s) = true.
Proof.
  revert s. induction p as [|a p IH]; [easy|].
  intros [|b s] Hp H; [easy|].
  cbn [startsWith] in H. apply andb_prop in H as [Hab Hps].
  apply Ascii.eqb_eq in Hab; subst b.
  cbn [trimEnd].
  destruct p as [|a' p].
  - simpl in Hp. apply negb_true_iff in Hp. rewrite Hp. simpl.
    now rewrite Ascii.eqb_refl.
  - assert (Hp' : lastNonSpace (String a' p) = true) by exact Hp.
    specialize (IH s Hp' Hps).
    destruct (trimEnd s) as [|d t] eqn:Ht; [easy|].
    rewrite andb_false_r. cbn [startsWith].
    rewrite Ascii.eqb_refl. exact IH.
Qed.

Lemma includes_trimEnd (p s : string) :
  headNonSpace p = true -> lastNonSpace p = true ->
  includes s p = true -> includes (trimEnd s) p = true.
Proof.
  intros Hh Hl. induction s as [|c s IH]; [easy|].
  intros H. cbn [includes] in H. apply orb_prop in H as [H|H].
  - apply (startsWith_trimEnd _ _ Hl) in H.
    destruct (trimEnd (String c s)); simpl; rewrite H; reflexivity.
  - specialize (IH H). cbn [trimEnd].
    rewrite (includes_nonempty _ _ Hh IH), andb_false_r.
    cbn [includes]. rewrite IH. apply orb_true_r.
Qed.

Lemma includes_trim (p s : string) :
  headNonSpace p = true -> lastNonSpace p = true ->
  includes s p = true -> includes (trim s) p = true.
Proof.
  intros Hh Hl H. unfold trim.
  now apply includes_trimEnd, includes_trimStart.
Qed.

End StringFacts.

(** ** The parser *)

Example parse_compare :
  Parser.parseVoiceCommandLocal "compare Messi and Ronaldo"
  = mkIntent compare_players (Some "messi") (Some "ronaldo") None.
Proof. vm_compute. reflexivity. Qed.

Example parse_stats_for :
  Parser.parseVoiceCommandLocal "show me Mbappe stats for PSG"
  = mkIntent search_player (Some "mbappe") None (Some "PSG").
Proof. vm_compute. reflexivity. Qed.

Example parse_empty :
  Parser.parseVoiceCommandLocal ""
  = mkIntent search_player (Some "") None None.
Proof. vm_compute. reflexivity. Qed.

Lemma stopPhrases_shape (p : string) :
  In p stopPhrases ->
  Str.toLowerCase p = p /\ headNonSpace p = true /\ lastNonSpace p = true.
Proof.
  unfold stopPhrases. simpl.
  intros [<-|[<-|[<-|[<-|[<-|[]]]]]]; vm_compute; auto.
Qed.

Lemma stop_phrase_detected (commandLower p : string) :
  In p stopPhrases -> Str.includes commandLower p = true ->
  Parser.isStopCommand commandLower = true.
Proof.
  unfold stopPhrases, Parser.isStopCommand. simpl.
  intros [<-|[<-|[<-|[<-|[<-|[]]]]]] ->;
    rewrite ?orb_true_r; reflexivity.
Qed.

(** C2, as the code has it: an utterance that, lower-cased and trimmed, is
    exactly "stop" or starts with "stop ", or that contains one of the stop
    phrases (in any letter case), parses to [stop_speaking] whatever else it
    contains: the stop rule is tried before every other rule. *)
Theorem stop_rule_first (command : string) :
  Str.trim (Str.toLowerCase command) = "stop"
  \/ Str.startsWith "stop " (Str.trim (Str.toLowerCase command)) = true
  \/ (exists p, In p stopPhrases
                /\ (Str.includes command p = true
                    \/ Str.includes (Str.toLowerCase command) p = true)) ->
  Parser.parseVoiceCommandLocal command = intent stop_speaking.
Proof.
  intros H. unfold Parser.parseVoiceCommandLocal.
  enough (Parser.isStopCommand (Str.trim (Str.toLowerCase command)) = true)
    as -> by reflexivity.
  destruct H as [H|[H|(p & Hp & H)]].
  - rewrite H. reflexivity.
  - unfold Parser.isStopCommand. rewrite H.
    rewrite orb_true_r. reflexivity.
  - destruct (stopPhrases_shape p Hp) as (Hlow & Hhead & Hlast).
    apply (stop_phrase_detected _ p Hp).
    apply includes_trim; trivial.
    destruct H as [H|H]; trivial.
    now apply includes_toLowerCase.
Qed.

Lemma stop_rule_first_witness :
  Str.includes (Str.toLowerCase "Please BE QUIET and show Messi stats")
    "be quiet" = true
  /\ Parser.parseVoiceCommandLocal "Please BE QUIET and show Messi stats"
     = intent stop_speaking.
Proof.
  split; [reflexivity|].
  apply stop_rule_first. right; right. exists "be quiet".
  split; [simpl; auto | right; reflexivity].
Defined.

(** C2 as stated fails: "please stop" contains the word "stop", yet it is
    not the whole utterance, not at its start, and part of no stop phrase,
    so the parser falls through to the player search. *)
Lemma stop_word_inside_not_stop :
  hasWord "stop" "please stop" = true
  /\ Parser.parseVoiceCommandLocal "please stop"
     = mkIntent search_player (Some "please stop") None None
  /\ action (Parser.parseVoiceCommandLocal "please stop") <> stop_speaking.
Proof. vm_compute. repeat split; discriminate. Qed.

(** C5: on "show Barcelona achievements" the club rule strips the leading
    "show" only; "achievements" is in the prefix list but does not lead
    what is left, so it stays in [clubName]. *)
Theorem parse_show_barcelona_achievements :
  Parser.parseVoiceCommandLocal "show Barcelona achievements"
  = mkIntent club_achievements None None (Some "barcelona achievements").
Proof. vm_compute. reflexivity. Qed.

(** ** The timer table *)

Lemma timersOk_ext (s s' : State) :
  timers s' = timers s -> nextTimer s' = nextTimer s ->
  restartTimeout s' = restartTimeout s -> timersOk s -> timersOk s'.
Proof. unfold timersOk. intros -> -> ->. trivial. Qed.

Lemma timersOk_setTimeout (t : Task) (s : State) :
  isRestartTask t = false -> timersOk s -> timersOk (setTimeout t s).
Proof.
  intros Ht (Hlt & Hre & Hrt). repeat split; cbn; intros id x.
  - intros Hx. apply lookup_insert_Some in Hx as [[<- _]|[_ Hx]]; [lia|].
    apply Hlt in Hx. lia.
  - intros Hx. apply lookup_insert_Some in Hx as [[_ Heq]|[_ Hx]];
      [subst t; discriminate|].
    eauto.
  - apply Hrt in x. lia.
Qed.

Lemma timersOk_clearTimeout (id : nat) (s : State) :
  timersOk s -> timersOk (clearTimeout id s).
Proof.
  intros (Hlt & Hre & Hrt). repeat split; cbn; [intros k x Hx ..|exact Hrt];
    apply lookup_delete_Some in Hx as [_ Hx]; eauto.
Qed.

Lemma timersOk_scheduleRestart (o : RestartOrigin) (s : State) :
  timersOk s -> timersOk (scheduleRestart o s).
Proof.
  intros (Hlt & Hre & Hrt). unfold scheduleRestart.
  destruct (restartTimeout s) as [old|] eqn:Hold; repeat split; cbn;
    try (intros k [= <-]; lia);
    intros k x Hx; apply lookup_insert_Some in Hx as [[<- Hx]|[Hk Hx]];
    try lia; try reflexivity.
  - apply lookup_delete_Some in Hx as [_ Hx]. apply Hlt in Hx. lia.
  - apply lookup_delete_Some in Hx as [Hne Hx].
    apply Hre in Hx. congruence.
  - apply Hlt in Hx. lia.
  - apply Hre in Hx. congruence.
Qed.

Ltac timers_step :=
  first
    [ assumption
    | apply timersOk_scheduleRestart
    | apply timersOk_clearTimeout
    | apply timersOk_setTimeout; [reflexivity|]
    | match goal with
      | |- timersOk (?f ?v ?s) =>
          apply (timersOk_ext s (f v s)); [reflexivity..|]
      end
    | match goal with
      | |- timersOk (if ?b then _ else _) => destruct b
      | |- timersOk (match ?o with _ => _ end) => destruct o
      end ].

Ltac timers_ok := lazy zeta; repeat timers_step.

Lemma timersOk_safeStart (s : State) :
  timersOk s -> timersOk (safeStartRecognition s).2.
Proof.
  intros H. unfold safeStartRecognition.
  repeat match goal with
         | |- context [if ?b then _ else _] => destruct b
         end; cbn [snd]; timers_ok.
Qed.

Lemma timersOk_speak (text : Speech) (interrupt : bool) (s : State) :
  timersOk s -> timersOk (speak text interrupt s).
Proof. intros H. unfold speak, synthCancel. timers_ok. Qed.

Lemma timersOk_stopReading (s : State) :
  timersOk s -> timersOk (stopReading s).
Proof. intros H. unfold stopReading, synthCancel. timers_ok. Qed.

Lemma timersOk_readResultsAloud (s : State) :
  timersOk s -> timersOk (readResultsAloud s).
Proof.
  intros H. unfold readResultsAloud, readPlayerStats.
  timers_ok; apply timersOk_speak; timers_ok.
Qed.

Lemma timersOk_readSectionAloud (none : string) (report : Speech)
    (entries : nat) (s : State) :
  timersOk s -> timersOk (readSectionAloud none report entries s).
Proof.
  intros H. unfold readSectionAloud. timers_ok; now apply timersOk_speak.
Qed.

Ltac timers_more :=
  lazy zeta;
  repeat first
    [ timers_step
    | apply timersOk_speak
    | apply timersOk_stopReading
    | apply timersOk_readResultsAloud
    | apply timersOk_readSectionAloud ].

Lemma timersOk_afterStart (s : State) (k : bool -> State -> State) :
  (forall ok s', timersOk s' -> timersOk (k ok s')) ->
  timersOk s ->
  timersOk (let '(ok, s') := safeStartRecognition s in k ok s').
Proof.
  intros Hk H. apply timersOk_safeStart in H.
  destruct (safeStartRecognition s) as [ok s']. now apply Hk.
Qed.

Lemma timersOk_runTask (t : Task) (s : State) :
  timersOk s -> timersOk (runTask t s).
Proof.
  intros H. destruct t; cbn [runTask].
  - unfold restartTask.
    destruct (_ && _); [now apply timersOk_safeStart | assumption].
  - unfold speakTask, synthSpeak. timers_ok.
  - destruct (_ && _); [now apply timersOk_readResultsAloud | assumption].
  - now apply timersOk_readResultsAloud.
  - unfold readComparison. timers_ok. now apply timersOk_speak.
  - unfold readClubInfo. timers_ok. now apply timersOk_speak.
  - unfold readFavorites. timers_ok; now apply timersOk_speak.
  - timers_ok.
  - timers_ok.
  - apply (timersOk_afterStart s
             (fun ok s' => if ok && userInteracted s' then _ else s'));
      [|assumption].
    intros ok s' H'. timers_ok. now apply timersOk_speak.
  - destruct (_ && _); [|assumption].
    apply (timersOk_afterStart _
             (fun (ok : bool) s' => if ok then s' else _)); timers_ok.
    intros ok s' H'. timers_ok.
  - unfold startOnInteraction. timers_ok.
Qed.

Lemma timersOk_dispatch (data : Intent) (favorites : nat) (s : State) :
  timersOk s -> timersOk (dispatch data favorites s).
Proof.
  intros H. unfold dispatch, readSection, searchPlayerStatsBegin,
    loadFavorites.
  destruct (action data); timers_ok;
    first [ apply timersOk_stopReading
          | apply timersOk_readResultsAloud
          | apply timersOk_readSectionAloud
          | apply timersOk_speak
          | idtac ]; timers_ok.
Qed.

Lemma timersOk_step (s : State) (e : Event) :
  timersOk s -> timersOk (step s e).
Proof.
  intros H. destruct e; cbn [step].
  - destruct (timers s !! id); [|assumption].
    apply timersOk_runTask. timers_ok.
  - unfold afterPermission. lazy zeta.
    assert (H1 : timersOk (permissionRefused p s))
      by (unfold permissionRefused; destruct p; trivial;
          now apply timersOk_speak).
    revert H1. generalize (permissionRefused p s). intros s1 H1.
    generalize (match p with Granted => true | _ => false end). intros g.
    destruct c, g; try solve [timers_ok].
    apply (timersOk_afterStart _
             (fun (ok : bool) s' => if ok then s' else _)); timers_ok.
    intros ok s' H''. timers_ok.
  - unfold startOnInteraction. timers_ok.
  - timers_ok.
  - unfold toggleVoiceRecording. timers_ok.
  - now apply timersOk_stopReading.
  - unfold searchPlayerStatsBegin. timers_ok.
  - unfold loadFavorites. timers_ok.
  - unfold recognitionOnStart. timers_ok.
  - unfold recognitionOnResult. timers_more.
  - unfold recognitionOnError. destruct error; timers_more.
  - unfold recognitionOnEnd. timers_ok.
  - now apply timersOk_dispatch.
  - unfold searchPlayerStatsEnd, readError.
    destruct o; timers_ok; now apply timersOk_speak.
  - unfold comparePlayersEnd. timers_ok.
  - unfold showClubAchievementsEnd. timers_ok.
  - destruct (synthQueue s); [assumption|].
    unfold utteranceOnStart. timers_ok.
  - unfold utteranceOnEnd. timers_ok.
  - unfold utteranceOnError. timers_ok.
Qed.

Lemma timersOk_initial (r y : bool) : timersOk (initial r y).
Proof.
  repeat split; cbn; [intros id t H ..|discriminate];
    apply lookup_singleton_Some in H as [Hid Ht]; [lia | discriminate].
Qed.

Lemma timersOk_run (trace : list Event) (s : State) :
  timersOk s -> timersOk (run s trace).
Proof.
  revert s. induction trace as [|e trace IH]; intros s H; [exact H|].
  apply IH, timersOk_step, H.
Qed.

Lemma timersOk_reachable (s : State) : reachable s -> timersOk s.
Proof.
  intros (r & y & trace & ->). apply timersOk_run, timersOk_initial.
Qed.

Lemma restarts_unique (s : State) (id1 id2 : nat) (o1 o2 : RestartOrigin) :
  timersOk s ->
  timers s !! id1 = Some (RestartTask o1) ->
  timers s !! id2 = Some (RestartTask o2) ->
  id1 = id2 /\ o1 = o2.
Proof.
  intros (_ & Hre & _) H1 H2.
  pose proof (Hre _ _ H1) as E1. pose proof (Hre _ _ H2) as E2.
  assert (id1 = id2) by congruence. subst id2. split; congruence.
Qed.

Lemma pendingRestarts_le_1 (s : State) :
  timersOk s -> pendingRestarts s <= 1.
Proof.
  intros Hok. unfold pendingRestarts.
  set (P := fun kv : nat * Task => isRestartTask kv.2 = true).
  assert (Hnd : NoDup (filter P (map_to_list (timers s))))
    by apply NoDup_filter, NoDup_map_to_list.
  assert (Hall : forall x y, x ∈ filter P (map_to_list (timers s)) ->
                             y ∈ filter P (map_to_list (timers s)) -> x = y).
  { intros [k1 t1] [k2 t2] [Hp1 Hin1]%list_elem_of_filter
           [Hp2 Hin2]%list_elem_of_filter.
    apply elem_of_map_to_list in Hin1, Hin2. unfold P in Hp1, Hp2.
    destruct t1; try discriminate. destruct t2; try discriminate.
    destruct (restarts_unique s k1 k2 _ _ Hok Hin1 Hin2). congruence. }
  destruct (filter P (map_to_list (timers s))) as [|a [|b l]];
    cbn; [lia | lia |].
  exfalso. apply NoDup_cons in Hnd as [Hnotin _].
  apply Hnotin. rewrite (Hall a b); [left | left | right; left].
Qed.

Lemma scheduleRestart_pending (o : RestartOrigin) (s : State) :
  timers (scheduleRestart o s) !! nextTimer s = Some (RestartTask o)
  /\ restartTimeout (scheduleRestart o s) = Some (nextTimer s).
Proof.
  unfold scheduleRestart. destruct (restartTimeout s); cbn;
    rewrite lookup_insert_eq; auto.
Qed.

Lemma scheduleRestart_cancels (o : RestartOrigin) (s : State) (old : nat) :
  timersOk s -> restartTimeout s = Some old ->
  timers (scheduleRestart o s) !! old = None.
Proof.
  intros (_ & _ & Hrt) Hold. unfold scheduleRestart. rewrite Hold. cbn.
  apply Hrt in Hold. rewrite lookup_insert_ne by lia.
  apply lookup_delete_eq.
Qed.

(** ** Silence while muted *)

Section Silence.
Variables (log : list Speech) (idle : bool).

Lemma hushed_ext (s s' : State) :
  ttsMuted s' = ttsMuted s -> narrated s' = narrated s ->
  synthQueue s' = synthQueue s -> isReadingAloud s' = isReadingAloud s ->
  Hushed log idle s -> Hushed log idle s'.
Proof. unfold Hushed. intros -> -> -> ->. trivial. Qed.

Lemma hushed_synthCancel (s : State) :
  Hushed log idle s -> Hushed log idle (synthCancel s).
Proof. intros (Hm & Hn & Hi). repeat split; trivial. now apply Hi. Qed.

Lemma hushed_set_ttsMuted_true (s : State) :
  Hushed log idle s -> Hushed log idle (set_ttsMuted true s).
Proof. intros (Hm & Hn & Hi). repeat split; trivial; now apply Hi. Qed.

Lemma hushed_set_isReadingAloud_false (s : State) :
  Hushed log idle s -> Hushed log idle (set_isReadingAloud false s).
Proof. intros (Hm & Hn & Hi). repeat split; trivial; now apply Hi. Qed.

Lemma hushed_dequeue (s : State) :
  Hushed log idle s ->
  Hushed log idle (set_synthQueue (tail (synthQueue s)) s).
Proof.
  intros (Hm & Hn & Hi). repeat split; trivial; cbn;
    destruct (Hi H) as [Hq Hr]; trivial. now rewrite Hq.
Qed.

Lemma hushed_scheduleRestart (o : RestartOrigin) (s : State) :
  Hushed log idle s -> Hushed log idle (scheduleRestart o s).
Proof.
  intros H. unfold scheduleRestart.
  destruct (restartTimeout s); (eapply hushed_ext; [..|exact H]); reflexivity.
Qed.

Lemma hushed_safeStart (s : State) :
  Hushed log idle s -> Hushed log idle (safeStartRecognition s).2.
Proof.
  intros H. unfold safeStartRecognition.
  repeat match goal with
         | |- context [if ?b then _ else _] => destruct b
         end; cbn [snd]; trivial;
    (eapply hushed_ext; [..|exact H]); reflexivity.
Qed.

Lemma hushed_afterStart (s : State) (k : bool -> State -> State) :
  (forall ok s', Hushed log idle s' -> Hushed log idle (k ok s')) ->
  Hushed log idle s ->
  Hushed log idle (let '(ok, s') := safeStartRecognition s in k ok s').
Proof.
  intros Hk H. apply hushed_safeStart in H.
  destruct (safeStartRecognition s) as [ok s']. now apply Hk.
Qed.

(** The deferred start of an utterance does nothing while muted. *)
Lemma hushed_speakTask (text : Speech) (s : State) :
  Hushed log idle s -> Hushed log idle (speakTask text s).
Proof.
  intros H. unfold speakTask. destruct H as (Hm & H). rewrite Hm.
  cbn. now split.
Qed.

Ltac hush_step :=
  first
    [ assumption
    | lazymatch goal with
      | |- Hushed _ _ (synthCancel _) => apply hushed_synthCancel
      | |- Hushed _ _ (set_ttsMuted true _) => apply hushed_set_ttsMuted_true
      | |- Hushed _ _ (set_isReadingAloud false _) =>
          apply hushed_set_isReadingAloud_false
      | |- Hushed _ _ (set_synthQueue (tail _) _) => apply hushed_dequeue
      | |- Hushed _ _ (scheduleRestart _ _) => apply hushed_scheduleRestart
      | |- Hushed _ _ (speakTask _ _) => apply hushed_speakTask
      | |- Hushed _ _ (if ?b then _ else _) => destruct b
      | |- Hushed _ _ (?f ?v ?s) =>
          apply (hushed_ext s (f v s)); [reflexivity..|]
      end ].

Ltac hush := lazy zeta; repeat hush_step.

Lemma hushed_speak (text : Speech) (interrupt : bool) (s : State) :
  Hushed log idle s -> Hushed log idle (speak text interrupt s).
Proof. intros H. unfold speak. hush. Qed.

Lemma hushed_stopReading (s : State) :
  Hushed log idle s -> Hushed log idle (stopReading s).
Proof. intros H. unfold stopReading. hush. Qed.

Lemma hushed_readResultsAloud (s : State) :
  Hushed log idle s -> Hushed log idle (readResultsAloud s).
Proof.
  intros H. unfold readResultsAloud, readPlayerStats.
  destruct (_ || _); [assumption|].
  destruct (searchResults s); hush; apply hushed_speak; hush.
Qed.

Lemma hushed_readSectionAloud (none : string) (report : Speech)
    (entries : nat) (s : State) :
  Hushed log idle s -> Hushed log idle (readSectionAloud none report entries s).
Proof.
  intros H. unfold readSectionAloud. hush; now apply hushed_speak.
Qed.

Ltac hush_more :=
  lazy zeta;
  repeat first
    [ lazymatch goal with
      | |- Hushed _ _ (speak _ _ _) => apply hushed_speak
      | |- Hushed _ _ (stopReading _) => apply hushed_stopReading
      | |- Hushed _ _ (readResultsAloud _) => apply hushed_readResultsAloud
      | |- Hushed _ _ (readSectionAloud _ _ _ _) =>
          apply hushed_readSectionAloud
      end
    | hush_step ].

Lemma hushed_runTask (t : Task) (s : State) :
  Hushed log idle s -> Hushed log idle (runTask t s).
Proof.
  intros H. destruct t; cbn [runTask].
  - unfold restartTask.
    destruct (_ && _); [now apply hushed_safeStart | assumption].
  - hush.
  - hush_more.
  - hush_more.
  - unfold readComparison. hush_more.
  - unfold readClubInfo. hush_more.
  - unfold readFavorites. hush_more.
  - hush.
  - hush.
  - apply (hushed_afterStart s
             (fun ok s' => if ok && userInteracted s' then _ else s'));
      [|assumption].
    intros ok s' H'. hush_more.
  - destruct (_ && _); [|assumption].
    apply (hushed_afterStart _
             (fun (ok : bool) s' => if ok then s' else _)); hush.
    intros ok s' H'. hush.
  - unfold startOnInteraction. hush.
Qed.

Lemma hushed_dispatch (data : Intent) (favorites : nat) (s : State) :
  match action data with
  | resume_speaking => false
  | search_player | other_action => negb (normalized (playerName data))
  | _ => true
  end = true ->
  Hushed log idle s -> Hushed log idle (dispatch data favorites s).
Proof.
  intros Hu H.
  unfold dispatch, readSection, loadFavorites, readInjuriesAloud,
    readTransfersAloud, readAchievementsAloud, readMarketValueAloud.
  destruct (action data); try discriminate;
    try (apply negb_true_iff in Hu; rewrite Hu);
    try match goal with
        | |- context [searchResults s ≫= ?f] => destruct (searchResults s ≫= f)
        end;
    hush_more.
Qed.

(** One step of a muted page stays muted and narrates nothing, unless the
    event is one that clears the mute. *)
Lemma hushed_step (s : State) (e : Event) :
  unmutes e = false ->
  Hushed log idle s -> Hushed log idle (step s e).
Proof.
  intros Hu H. destruct e; cbn [step unmutes] in *.
  - destruct (timers s !! id); [|assumption].
    apply hushed_runTask. hush.
  - unfold afterPermission. lazy zeta.
    assert (H1 : Hushed log idle (permissionRefused p s))
      by (unfold permissionRefused; destruct p; trivial;
          now apply hushed_speak).
    revert H1. generalize (permissionRefused p s). intros s1 H1.
    generalize (match p with Granted => true | _ => false end). intros g.
    destruct c, g; try solve [hush].
    apply (hushed_afterStart _
             (fun (ok : bool) s' => if ok then s' else _)); hush.
    intros ok s' H''. hush.
  - unfold startOnInteraction. hush.
  - hush.
  - unfold toggleVoiceRecording. hush.
  - now apply hushed_stopReading.
  - apply negb_false_iff in Hu. rewrite Hu. hush.
  - unfold loadFavorites. hush.
  - unfold recognitionOnStart. hush.
  - unfold recognitionOnResult. hush_more.
  - unfold recognitionOnError. destruct error; hush_more.
  - unfold recognitionOnEnd. hush.
  - apply hushed_dispatch; [|assumption].
    destruct (action (chosenIntent transcript remote));
      try discriminate; try reflexivity; now rewrite Hu.
  - unfold searchPlayerStatsEnd, readError.
    destruct o; try discriminate; hush_more.
  - subst ok. exact H.
  - subst ok. exact H.
  - destruct (synthQueue s) eqn:Hq; [assumption|].
    destruct H as (Hm & Hn & Hi).
    destruct idle; [destruct (Hi eq_refl); congruence|].
    repeat split; trivial; discriminate.
  - unfold utteranceOnEnd. lazy zeta.
    match goal with
    | |- Hushed _ _ (if ?b then _ else _) => destruct b
    end; hush.
  - unfold utteranceOnError. hush.
Qed.

Lemma hushed_run (trace : list Event) (s : State) :
  Forall (fun e => unmutes e = false) trace ->
  Hushed log idle s -> Hushed log idle (run s trace).
Proof.
  revert s. induction trace as [|e trace IH]; intros s Hall H; [exact H|].
  inversion Hall; subst. apply IH; [assumption|]. now apply hushed_step.
Qed.

End Silence.

(** ** Reduction of the assignments *)

Ltac state_simpl :=
  cbn [isRecording recognition currentSpeech searchResults autoListening
       ttsMuted userInteracted isReadingAloud isRecognitionStarting
       isRecognitionStopping restartTimeout isActive currentUtterance
       hasSynthesis timers nextTimer synthQueue synthSpeaking recRunning
       armed narrated
       set_isRecording set_recognition set_currentSpeech set_searchResults
       set_autoListening set_ttsMuted set_userInteracted set_isReadingAloud
       set_isRecognitionStarting set_isRecognitionStopping
       set_restartTimeout set_isActive set_currentUtterance
       set_hasSynthesis set_timers set_nextTimer set_synthQueue
       set_synthSpeaking set_recRunning set_armed set_narrated
       setTimeout clearTimeout synthCancel synthSpeak
       fst snd andb orb negb] in *.

Ltac case_ifs :=
  repeat match goal with
         | |- context [if ?b then _ else _] => destruct b eqn:?
         end;
  state_simpl.

Lemma speak_narrated (text : Speech) (interrupt : bool) (s : State) :
  narrated (speak text interrupt s) = narrated s.
Proof. unfold speak. case_ifs; reflexivity. Qed.

Lemma speak_ttsMuted (text : Speech) (interrupt : bool) (s : State) :
  ttsMuted (speak text interrupt s) = ttsMuted s.
Proof. unfold speak. case_ifs; reflexivity. Qed.

(** ** C7: restart debounce *)

(** C7: in every state the page can reach, at most one restart callback is
    pending; and scheduling a restart (what [onend], a [no-speech] error and
    the end of an utterance do) cancels the pending one, if any, and leaves
    exactly the new one. *)
Theorem one_pending_restart (s : State) :
  reachable s ->
  pendingRestarts s <= 1
  /\ (forall id1 id2 o1 o2,
        timers s !! id1 = Some (RestartTask o1) ->
        timers s !! id2 = Some (RestartTask o2) -> id1 = id2)
  /\ (forall o,
        pendingRestarts (scheduleRestart o s) = 1
        /\ timers (scheduleRestart o s) !! nextTimer s = Some (RestartTask o)
        /\ forall old, restartTimeout s = Some old ->
                       timers (scheduleRestart o s) !! old = None)
  /\ (forall trace, pendingRestarts (run s trace) <= 1).
Proof.
  intros Hr. pose proof (timersOk_reachable s Hr) as Hok.
  split; [now apply pendingRestarts_le_1|].
  split; [intros id1 id2 o1 o2 H1 H2;
          now destruct (restarts_unique s id1 id2 o1 o2 Hok H1 H2)|].
  split.
  - intros o. destruct (scheduleRestart_pending o s) as [Hnew _].
    split; [|split; [exact Hnew|]].
    + pose proof (pendingRestarts_le_1 _ (timersOk_scheduleRestart o s Hok))
        as Hle.
      enough (0 < pendingRestarts (scheduleRestart o s)) by lia.
      unfold pendingRestarts in *.
      apply elem_of_map_to_list in Hnew.
      assert (Hin : (nextTimer s, RestartTask o)
                    ∈ filter (fun kv : nat * Task => isRestartTask kv.2 = true)
                        (map_to_list (timers (scheduleRestart o s))))
        by (apply list_elem_of_filter; split; [reflexivity | exact Hnew]).
      destruct (filter _ _); [inversion Hin | cbn; lia].
    + intros old Hold. now apply scheduleRestart_cancels.
  - intros trace. apply pendingRestarts_le_1, timersOk_run, Hok.
Qed.

Lemma one_pending_restart_witness :
  let s := run (initial true true)
             [ToggleVoice false; PermissionAnswer Toggle Granted; RecStart;
              RecError no_speech; RecEnd] in
  reachable s /\ pendingRestarts s <= 1.
Proof.
  assert (Hr : reachable
                 (run (initial true true)
                    [ToggleVoice false; PermissionAnswer Toggle Granted;
                     RecStart; RecError no_speech; RecEnd]))
    by (exists true, true,
          [ToggleVoice false; PermissionAnswer Toggle Granted; RecStart;
           RecError no_speech; RecEnd]; reflexivity).
  split; [exact Hr|].
  exact (proj1 (one_pending_restart _ Hr)).
Defined.

(** A [no-speech] error followed by the end of the session: the second
    restart replaces the first. *)
Example no_speech_then_end_one_timer :
  let s := run (initial true true)
             [ToggleVoice false; PermissionAnswer Toggle Granted; RecStart;
              RecError no_speech; RecEnd] in
  pendingRestarts s = 1 /\ timers s !! 3 = Some (RestartTask AfterEnd)
  /\ timers s !! 2 = None /\ restartTimeout s = Some 3.
Proof. vm_compute. auto. Qed.

(** ** C4: how long a mute lasts *)

(** C4, as the code has it: once a [stop_speaking] intent is dispatched,
    the page stays muted and hands nothing to the synthesis engine (and,
    where there is an engine, its queue stays empty and no utterance is
    being read) for as long as no event clears the mute.  The events that do
    are listed by [unmutes]: a [resume_speaking] intent, a successful lookup
    of any kind, and also the mere start of a player search.  Failed lookups
    are not among them: on their own they narrate nothing. *)
Theorem mute_persists (s : State) (transcript : string)
    (remote : option Intent) (favorites : nat) (trace : list Event) :
  action (chosenIntent transcript remote) = stop_speaking ->
  Forall (fun e => unmutes e = false) trace ->
  let s1 := step s (CommandParsed transcript remote favorites) in
  ttsMuted (run s1 trace) = true
  /\ narrated (run s1 trace) = narrated s
  /\ (hasSynthesis s = true ->
      synthQueue (run s1 trace) = [] /\ isReadingAloud (run s1 trace) = false).
Proof.
  intros Hstop Hall s1.
  apply (hushed_run (narrated s) (hasSynthesis s)); [exact Hall|].
  subst s1. cbn [step]. unfold dispatch. rewrite Hstop.
  unfold stopReading. state_simpl.
  destruct (hasSynthesis s); repeat split; state_simpl; trivial;
    discriminate.
Qed.

Lemma mute_persists_witness :
  let s := run (initial true true) [SubmitSearch "messi"] in
  let trace := [SearchDone (SearchFailed "no answer"); StopButton] in
  (action (chosenIntent "quiet please" None) = stop_speaking
   /\ Forall (fun e => unmutes e = false) trace)
  /\ narrated (run (step s (CommandParsed "quiet please" None 0)) trace) = [].
Proof.
  assert (H1 : action (chosenIntent "quiet please" None) = stop_speaking)
    by reflexivity.
  assert (H2 : Forall (fun e => unmutes e = false)
                 [SearchDone (SearchFailed "no answer"); StopButton])
    by (repeat constructor).
  split; [split; assumption|].
  exact (proj1 (proj2 (mute_persists
                         (run (initial true true) [SubmitSearch "messi"])
                         "quiet please" None 0 _ H1 H2))).
Defined.

(** C4 as stated fails: the user says "quiet please", which is dispatched
    as [stop_speaking], and then "messi", which starts a player search and
    so clears the mute before any answer is known; the lookup fails and its
    error message is narrated, although nobody said "resume" and no lookup
    succeeded. *)
Lemma failed_search_is_narrated :
  let listening :=
    run (initial true true)
      [ToggleVoice false; PermissionAnswer Toggle Granted; RecStart] in
  let stopped :=
    run listening
      [RecResult true "quiet please"; CommandParsed "quiet please" None 0] in
  let final :=
    run stopped
      [RecResult true "messi"; CommandParsed "messi" None 0;
       SearchDone (SearchFailed "no answer"); TimerFire 2] in
  action (chosenIntent "quiet please" None) = stop_speaking
  /\ ttsMuted stopped = true
  /\ action (chosenIntent "messi" None) = search_player
  /\ narrated final = [ErrorText "no answer"].
Proof. vm_compute. auto. Qed.

(** ** C3: the mute gate of [TTSManager.speak] *)

(** C3: while [ttsMuted] is set, a non-interrupt call returns at once and
    changes nothing; a call in either mode hands nothing to the engine by
    itself; and when the deferred start of an utterance runs while muted it
    does nothing: the step leaves the state as it was but for the timer that
    fired, which is gone, so the text is kept nowhere for later. *)
Theorem mute_gate (s : State) (text : Speech) :
  ttsMuted s = true ->
  speak text false s = s
  /\ (forall interrupt,
        narrated (speak text interrupt s) = narrated s
        /\ ttsMuted (speak text interrupt s) = true)
  /\ speakTask text s = s
  /\ (forall id, timers s !! id = Some (SpeakTask text) ->
        step s (TimerFire id) = clearTimeout id s
        /\ timers (step s (TimerFire id)) !! id = None
        /\ narrated (step s (TimerFire id)) = narrated s
        /\ synthQueue (step s (TimerFire id)) = synthQueue s).
Proof.
  intros Hm. repeat split.
  - unfold speak. now rewrite Hm.
  - apply speak_narrated.
  - now rewrite speak_ttsMuted.
  - unfold speakTask. now rewrite Hm.
  - cbn [step]. rewrite H. cbn [runTask]. unfold speakTask.
    state_simpl. now rewrite Hm.
  - cbn [step]. rewrite H. cbn [runTask]. unfold speakTask.
    state_simpl. rewrite Hm. state_simpl. apply lookup_delete_eq.
  - cbn [step]. rewrite H. cbn [runTask]. unfold speakTask.
    state_simpl. now rewrite Hm.
  - cbn [step]. rewrite H. cbn [runTask]. unfold speakTask.
    state_simpl. now rewrite Hm.
Qed.

Lemma mute_gate_witness :
  let s := run (initial true true)
             [SubmitSearch "messi"; SearchDone (SearchFailed "no answer");
              StopButton] in
  ttsMuted s = true
  /\ timers s !! 2 = Some (SpeakTask (ErrorText "no answer"))
  /\ narrated (step s (TimerFire 2)) = narrated s.
Proof.
  assert (Hm : ttsMuted
                 (run (initial true true)
                    [SubmitSearch "messi";
                     SearchDone (SearchFailed "no answer"); StopButton])
               = true) by reflexivity.
  assert (Ht : timers
                 (run (initial true true)
                    [SubmitSearch "messi";
                     SearchDone (SearchFailed "no answer"); StopButton])
               !! 2 = Some (SpeakTask (ErrorText "no answer")))
    by (vm_compute; reflexivity).
  split; [exact Hm|]. split; [exact Ht|].
  destruct (mute_gate _ (ErrorText "no answer") Hm) as (_ & _ & _ & Hfire).
  destruct (Hfire 2 Ht) as (_ & _ & Hn & _). exact Hn.
Defined.

(** ** C6: non-interrupt calls while speaking *)

(** C6, as the code has it: [speak(text, false)] is dropped when the page
    is muted or the text is blank.  Otherwise being in the middle of an
    utterance does not stop it: the call cancels nothing and sets its timer,
    and when the timer runs a new utterance is made and handed to the
    engine, which queues it behind the one in flight. *)
Theorem non_interrupt_while_speaking (s : State) (text : Speech) :
  isReadingAloud s = true ->
  (ttsMuted s = true \/ blank text = true -> speak text false s = s)
  /\ (ttsMuted s = false -> blank text = false -> hasSynthesis s = true ->
      let s1 := speak text false s in
      let s2 := step s1 (TimerFire (nextTimer s)) in
      timers s1 !! nextTimer s = Some (SpeakTask text)
      /\ synthQueue s1 = synthQueue s
      /\ synthQueue s2 = (synthQueue s ++ [text])%list
      /\ narrated s2 = (narrated s ++ [text])%list
      /\ currentUtterance s2 = Some text
      /\ isReadingAloud s2 = true).
Proof.
  intros Hr. split.
  - intros [Hm|Hb]; unfold speak.
    + now rewrite Hm.
    + rewrite Hb. now destruct (ttsMuted s && negb false).
  - intros Hm Hb Hs. unfold speak. rewrite Hm, Hb.
    cbn [andb negb]. lazy zeta.
    assert (Hs' : hasSynthesis
                    (if negb (userInteracted s)
                     then set_userInteracted true s else s) = true)
      by (destruct (userInteracted s); exact Hs).
    rewrite Hs'. cbn [andb].
    destruct (userInteracted s) eqn:Hu; cbn [negb];
      cbn [step]; state_simpl; rewrite lookup_insert_eq;
      cbn [runTask]; unfold speakTask; state_simpl;
      rewrite ?Hm, ?Hu; state_simpl; auto 10.
Qed.

Lemma non_interrupt_while_speaking_witness :
  let s := run (initial true true)
             [SubmitSearch "messi"; SearchDone (Found (mkResults None None None None));
              TimerFire 2; TimerFire 4; UttStart] in
  isReadingAloud s = true
  /\ synthQueue (step (speak (Say "one moment") false s) (TimerFire (nextTimer s)))
     = [PlayerStatsReport; Say "one moment"].
Proof.
  assert (Hr : isReadingAloud
                 (run (initial true true)
                    [SubmitSearch "messi";
                     SearchDone (Found (mkResults None None None None));
                     TimerFire 2; TimerFire 4; UttStart]) = true)
    by reflexivity.
  split; [exact Hr|].
  destruct (non_interrupt_while_speaking _ (Say "one moment") Hr)
    as [_ Hq].
  destruct (Hq eq_refl eq_refl eq_refl) as (_ & _ & Hq2 & _). exact Hq2.
Defined.

(** C6 as stated fails: the page is reading a player report aloud when a
    second search fails; [readError] calls [speak(text, false)], and the
    error message is not dropped but queued behind the report. *)
Lemma non_interrupt_not_dropped :
  let s := run (initial true true)
             [SubmitSearch "messi";
              SearchDone (Found (mkResults None None None None));
              TimerFire 2; TimerFire 4; UttStart] in
  let s' := run s [SubmitSearch "ronaldo";
                   SearchDone (SearchFailed "no answer"); TimerFire 5] in
  isReadingAloud s = true /\ ttsMuted s = false
  /\ synthQueue s = [PlayerStatsReport]
  /\ synthQueue s' = [PlayerStatsReport; ErrorText "no answer"]
  /\ narrated s' = [PlayerStatsReport; ErrorText "no answer"].
Proof. vm_compute. auto 10. Qed.

(** ** C1: input and output together *)

(** C1 as stated fails: the recogniser is listening when the command
    "read injuries" is answered with a spoken remark; nothing pauses the
    recogniser, so when the utterance starts both [isRecording] and
    [isReadingAloud] (and [TTSManager.isActive]) are set. *)
Lemma listening_while_speaking :
  let s := run (initial true true)
             [ToggleVoice false; PermissionAnswer Toggle Granted; RecStart;
              RecResult true "read injuries";
              CommandParsed "read injuries" None 0; TimerFire 2; UttStart] in
  isRecording s = true /\ isReadingAloud s = true /\ isActive s = true
  /\ synthQueue s
     = [Say "No injuries data available. Please search for a player first."].
Proof. vm_compute. auto. Qed.

(** C1, as the code has it: what waits for the output to be idle is the
    automatic restart of the input.  While [isReadingAloud] is set, a
    restart callback that fires starts nothing, and neither [onend] nor a
    [no-speech] error schedules one; the end of the utterance clears
    [isReadingAloud] and [TTSManager.isActive], and only then is a restart
    scheduled. *)
Theorem restart_waits_for_output (s : State) :
  isReadingAloud s = true ->
  (forall id o, timers s !! id = Some (RestartTask o) ->
                step s (TimerFire id) = clearTimeout id s)
  /\ timers (step s RecEnd) = timers s
  /\ timers (step s (RecError no_speech)) = timers s
  /\ isReadingAloud (step s UttEnd) = false
  /\ isActive (step s UttEnd) = false.
Proof.
  intros Hr. repeat split.
  - intros id o Ht. cbn [step]. rewrite Ht. cbn [runTask].
    unfold restartTask. state_simpl. rewrite Hr.
    now rewrite andb_false_r.
  - cbn [step]. unfold recognitionOnEnd. state_simpl. rewrite Hr.
    now rewrite andb_false_r.
  - cbn [step]. unfold recognitionOnError. state_simpl. rewrite Hr.
    now rewrite andb_false_r.
  - cbn [step]. unfold utteranceOnEnd, scheduleRestart. case_ifs;
      repeat match goal with
             | |- context [match ?o with Some _ => _ | None => _ end] =>
                 destruct o
             end; reflexivity.
  - cbn [step]. unfold utteranceOnEnd, scheduleRestart. case_ifs;
      repeat match goal with
             | |- context [match ?o with Some _ => _ | None => _ end] =>
                 destruct o
             end; reflexivity.
Qed.

Lemma restart_waits_for_output_witness :
  let s := run (initial true true)
             [ToggleVoice false; PermissionAnswer Toggle Granted; RecStart;
              RecError no_speech; SubmitSearch "messi";
              SearchDone (SearchFailed "no answer"); TimerFire 3; UttStart] in
  isReadingAloud s = true
  /\ timers s !! 2 = Some (RestartTask AfterNoSpeech)
  /\ step s (TimerFire 2) = clearTimeout 2 s.
Proof.
  assert (Hr : isReadingAloud
                 (run (initial true true)
                    [ToggleVoice false; PermissionAnswer Toggle Granted;
                     RecStart; RecError no_speech; SubmitSearch "messi";
                     SearchDone (SearchFailed "no answer"); TimerFire 3;
                     UttStart]) = true) by reflexivity.
  assert (Ht : timers
                 (run (initial true true)
                    [ToggleVoice false; PermissionAnswer Toggle Granted;
                     RecStart; RecError no_speech; SubmitSearch "messi";
                     SearchDone (SearchFailed "no answer"); TimerFire 3;
                     UttStart]) !! 2 = Some (RestartTask AfterNoSpeech))
    by (vm_compute; reflexivity).
  split; [exact Hr|]. split; [exact Ht|].
  destruct (restart_waits_for_output _ Hr) as [Hfire _].
  exact (Hfire 2 AfterNoSpeech Ht).
Defined.

(** ** C8: recognition errors *)

(** What [recognition.onerror] does to the three phase flags, whatever the
    error: it clears two of them and leaves [isRecognitionStopping] as it
    was. *)
Lemma recognitionOnError_flags (error : RecognitionError) (s : State) :
  isRecording (recognitionOnError error s) = false
  /\ isRecognitionStarting (recognitionOnError error s) = false
  /\ isRecognitionStopping (recognitionOnError error s)
     = isRecognitionStopping s.
Proof.
  unfold recognitionOnError, scheduleRestart, speak.
  destruct error; case_ifs;
    repeat match goal with
           | |- context [match ?o with Some _ => _ | None => _ end] =>
               destruct o
           end; state_simpl; auto.
Qed.

(** C8: the recogniser is listening, the user toggles it off
    ([isRecognitionStopping] is set and [recognition.stop()] called), and
    the engine reports an error before it reports the end: the error
    handler returns with [isRecognitionStopping] still set. *)
Theorem onerror_leaves_stopping :
  let s := run (initial true true)
             [ToggleVoice false; PermissionAnswer Toggle Granted; RecStart;
              ToggleVoice false] in
  isRecognitionStopping s = true
  /\ (forall error,
        isRecognitionStopping (step s (RecError error)) = true
        /\ isRecording (step s (RecError error)) = false
        /\ isRecognitionStarting (step s (RecError error)) = false)
  /\ isRecognitionStopping (step (step s (RecError aborted)) RecEnd) = false.
Proof.
  cbv zeta. split; [reflexivity|]. split; [|reflexivity].
  intros error. cbn [step].
  destruct (recognitionOnError_flags error
              (run (initial true true)
                 [ToggleVoice false; PermissionAnswer Toggle Granted;
                  RecStart; ToggleVoice false])) as (H1 & H2 & H3).
  rewrite H1, H2, H3. repeat split.
Qed.

(** ** C9: stopping the input twice *)

(** C9 as stated fails: the only stop operation of the input is the toggle.
    Called once while listening it stops the recogniser; called again when
    the engine has ended and the page is idle, it is the start operation:
    it asks for the microphone and starts recognition. *)
Lemma second_stop_starts_again :
  let idle := run (initial true true)
                [ToggleVoice false; PermissionAnswer Toggle Granted; RecStart;
                 ToggleVoice false; RecEnd] in
  let s := run idle [ToggleVoice false; PermissionAnswer Toggle Granted] in
  (isRecording idle = false /\ isRecognitionStarting idle = false
   /\ isRecognitionStopping idle = false /\ recRunning idle = false)
  /\ isRecognitionStarting s = true /\ autoListening s = true
  /\ recRunning s = true.
Proof. vm_compute. auto 10. Qed.

(** C9, as the code has it: while the input is listening or starting, the
    toggle is its stop operation.  Calling it twice in a row is the same as
    calling it once: auto-listening is off, the phase is stopping, the
    engine is not started, and the [onend] that follows leaves the phase
    idle without scheduling a restart.  An exception of
    [recognition.stop()] is caught, and the phase is then idle at once. *)
Theorem toggle_stop_twice (s : State) :
  recognition s = true ->
  isRecording s || isRecognitionStarting s = true ->
  let s1 := step s (ToggleVoice false) in
  let s2 := step s1 (ToggleVoice false) in
  s2 = s1
  /\ autoListening s2 = false /\ isRecognitionStopping s2 = true
  /\ recRunning s2 = recRunning s /\ timers s2 = timers s
  /\ (let s3 := step s2 RecEnd in
      isRecording s3 = false /\ isRecognitionStarting s3 = false
      /\ isRecognitionStopping s3 = false /\ timers s3 = timers s)
  /\ (let s' := step s (ToggleVoice true) in
      isRecording s' = false /\ isRecognitionStarting s' = false
      /\ isRecognitionStopping s' = false /\ autoListening s' = false).
Proof.
  intros Hrec Hon. cbn [step]. unfold toggleVoiceRecording.
  rewrite Hrec, Hon. state_simpl. rewrite Hrec, Hon. state_simpl.
  repeat split.
Qed.

Lemma toggle_stop_twice_witness :
  let s := run (initial true true)
             [ToggleVoice false; PermissionAnswer Toggle Granted; RecStart] in
  isRecording s = true
  /\ step (step s (ToggleVoice false)) (ToggleVoice false)
     = step s (ToggleVoice false).
Proof.
  split; [reflexivity|].
  exact (proj1 (toggle_stop_twice
                  (run (initial true true)
                     [ToggleVoice false; PermissionAnswer Toggle Granted;
                      RecStart]) eq_refl eq_refl)).
Defined.

(** ** C10: barge-in mutes the section that was asked for *)

Lemma muted_dispatch_section (s : State) (transcript : string)
    (remote : option Intent) (favorites : nat) :
  ttsMuted s = true ->
  In (action (Parser.parseVoiceCommandLocal transcript)) sectionReads ->
  dispatch (chosenIntent transcript remote) favorites s = s.
Proof.
  intros Hm Hin. unfold chosenIntent.
  assert (Hsp : existsb
                  (Action_eqb (action (Parser.parseVoiceCommandLocal transcript)))
                  specialActions = true)
    by (unfold sectionReads in Hin; simpl in Hin;
        destruct Hin as [<-|[<-|[<-|[<-|[]]]]]; reflexivity).
  rewrite Hsp. unfold dispatch, readSection, readInjuriesAloud,
    readTransfersAloud, readAchievementsAloud, readMarketValueAloud,
    readSectionAloud, speak.
  unfold sectionReads in Hin; simpl in Hin.
  destruct Hin as [<-|[<-|[<-|[<-|[]]]]];
    match goal with
    | |- context [searchResults s ≫= ?f] => destruct (searchResults s ≫= f)
    end; rewrite Hm; reflexivity.
Qed.

(** C10: a final transcript that arrives while an utterance is being read
    makes [onresult] call [stopReading], which mutes the page.  If the
    transcript parses to one of the section reads, the dispatch that follows
    changes nothing at all: the section's reader returns at its mute guard
    (and so does the remark made when the section is missing), so nothing is
    scheduled and nothing is narrated. *)
Theorem barge_in_silences_section_read (s : State) (raw : string)
    (remote : option Intent) (favorites : nat) :
  isReadingAloud s = true ->
  hasSynthesis s = true ->
  In (action (Parser.parseVoiceCommandLocal (Str.trim raw))) sectionReads ->
  let s1 := step s (RecResult true raw) in
  let s2 := step s1 (CommandParsed (Str.trim raw) remote favorites) in
  ttsMuted s1 = true /\ isReadingAloud s1 = false /\ synthQueue s1 = []
  /\ (forall entries,
        readInjuriesAloud entries s1 = s1
        /\ readTransfersAloud entries s1 = s1
        /\ readAchievementsAloud entries s1 = s1
        /\ readMarketValueAloud entries s1 = s1)
  /\ s2 = s1
  /\ ttsMuted s2 = true /\ narrated s2 = narrated s /\ timers s2 = timers s.
Proof.
  intros Hr Hs Hin s1 s2.
  assert (Hne : Str.isEmpty (Str.trim raw) = false).
  { destruct (Str.trim raw); [|reflexivity].
    vm_compute in Hin. intuition discriminate. }
  assert (H1 : ttsMuted s1 = true /\ isReadingAloud s1 = false
               /\ synthQueue s1 = [] /\ narrated s1 = narrated s
               /\ timers s1 = timers s).
  { subst s1. cbn [step]. unfold recognitionOnResult.
    cbn [negb]. rewrite Hne. state_simpl. rewrite Hr.
    unfold stopReading. state_simpl. rewrite Hs. state_simpl.
    destruct (isStopTranscript _); state_simpl; rewrite ?Hs; state_simpl;
      auto. }
  destruct H1 as (Hm & Hr1 & Hq & Hn & Ht).
  assert (H2 : s2 = s1) by (subst s2; cbn [step];
                            now apply muted_dispatch_section).
  rewrite H2. repeat split; trivial;
    unfold readInjuriesAloud, readTransfersAloud, readAchievementsAloud,
      readMarketValueAloud, readSectionAloud; now rewrite Hm.
Qed.

Lemma barge_in_silences_section_read_witness :
  let s := run (initial true true)
             [SubmitSearch "messi";
              SearchDone (Found (mkResults (Some 2) None None None));
              TimerFire 2; TimerFire 4; UttStart] in
  (isReadingAloud s = true
   /\ action (Parser.parseVoiceCommandLocal "read injuries") = read_injuries
   /\ searchResults s ≫= injuries = Some 2)
  /\ narrated (run s [RecResult true " read injuries ";
                      CommandParsed "read injuries" None 0])
     = [PlayerStatsReport].
Proof.
  split; [repeat split|].
  destruct (barge_in_silences_section_read
              (run (initial true true)
                 [SubmitSearch "messi";
                  SearchDone (Found (mkResults (Some 2) None None None));
                  TimerFire 2; TimerFire 4; UttStart])
              " read injuries " None 0 eq_refl eq_refl
              (or_introl eq_refl)) as (_ & _ & _ & _ & _ & _ & Hn & _).
  exact Hn.
Defined.

(** * Further properties *)

(** ** A driver for invariants of [step] *)

(** [safeStartRecognition] used through a pattern on its result. *)
Lemma afterStart_elim (P : State -> Prop) (s : State)
    (k : bool -> State -> State) :
  P (safeStartRecognition s).2 ->
  (forall ok s', P s' -> P (k ok s')) ->
  P (let '(ok, s') := safeStartRecognition s in k ok s').
Proof.
  intros H Hk. destruct (safeStartRecognition s) as [ok s']. now apply Hk.
Qed.

(** Peel the handlers off the state in the goal, outermost first: [special]
    is tried first, then the handler at the head is unfolded, a condition is
    split, or an assignment that the invariant does not look at is dropped
    through [ext]. *)
Ltac drive ext special :=
  lazy zeta;
  repeat first
    [ assumption
    | special tt
    | lazymatch goal with
      | |- _ (step _ ?e) => destruct e; cbn [step]
      | |- _ (runTask ?t _) => destruct t; cbn [runTask]
      | |- _ (match safeStartRecognition _ with _ => _ end) =>
          apply afterStart_elim; [|intros ? ? ?]
      | |- _ (if ?b then _ else _) => destruct b eqn:?
      | |- _ (match ?x with _ => _ end) => destruct x eqn:?
      | |- _ (afterPermission _ _ _) => unfold afterPermission
      | |- _ (permissionRefused _ _) => unfold permissionRefused
      | |- _ (startOnInteraction _) => unfold startOnInteraction
      | |- _ (toggleVoiceRecording _ _) => unfold toggleVoiceRecording
      | |- _ (searchPlayerStatsBegin _) => unfold searchPlayerStatsBegin
      | |- _ (loadFavorites _ _) => unfold loadFavorites
      | |- _ (recognitionOnStart _) => unfold recognitionOnStart
      | |- _ (recognitionOnResult _ _ _) => unfold recognitionOnResult
      | |- _ (recognitionOnError _ _) => unfold recognitionOnError
      | |- _ (recognitionOnEnd _) => unfold recognitionOnEnd
      | |- _ (dispatch _ _ _) => unfold dispatch
      | |- _ (readSection _ _ _ _) => unfold readSection
      | |- _ (readInjuriesAloud _ _) => unfold readInjuriesAloud
      | |- _ (readTransfersAloud _ _) => unfold readTransfersAloud
      | |- _ (readAchievementsAloud _ _) => unfold readAchievementsAloud
      | |- _ (readMarketValueAloud _ _) => unfold readMarketValueAloud
      | |- _ (readSectionAloud _ _ _ _) => unfold readSectionAloud
      | |- _ (searchPlayerStatsEnd _ _) => unfold searchPlayerStatsEnd
      | |- _ (readError _ _) => unfold readError
      | |- _ (comparePlayersEnd _ _) => unfold comparePlayersEnd
      | |- _ (showClubAchievementsEnd _ _) => unfold showClubAchievementsEnd
      | |- _ (utteranceOnStart _) => unfold utteranceOnStart
      | |- _ (utteranceOnEnd _) => unfold utteranceOnEnd
      | |- _ (utteranceOnError _ _) => unfold utteranceOnError
      | |- _ (restartTask _ _) => unfold restartTask
      | |- _ (speakTask _ _) => unfold speakTask
      | |- _ (readResultsAloud _) => unfold readResultsAloud
      | |- _ (readPlayerStats _ _) => unfold readPlayerStats
      | |- _ (readComparison _) => unfold readComparison
      | |- _ (readClubInfo _) => unfold readClubInfo
      | |- _ (readFavorites _ _) => unfold readFavorites
      | |- _ (stopReading _) => unfold stopReading
      | |- _ (scheduleRestart _ _) => unfold scheduleRestart
      | |- _ (speak _ _ _) => unfold speak
      | |- _ (synthCancel _) => unfold synthCancel
      | |- _ (synthSpeak _ _) => unfold synthSpeak
      | |- _ (?f ?v ?s) => apply (ext s (f v s)); [reflexivity..|]
      end
    | progress lazy zeta ].

(** ** The phase flags of the input *)

Lemma phase_ext (s s' : State) :
  isRecording s' = isRecording s ->
  isRecognitionStarting s' = isRecognitionStarting s ->
  PhaseOk s -> PhaseOk s'.
Proof. unfold PhaseOk. intros -> ->. trivial. Qed.

Lemma phase_safeStart (s : State) :
  PhaseOk s -> PhaseOk (safeStartRecognition s).2.
Proof.
  intros H. unfold safeStartRecognition.
  destruct (negb (recognition s)); [exact H|].
  destruct (isRecording s || isRecognitionStarting s
            || isRecognitionStopping s) eqn:Hb; [exact H|].
  apply orb_false_iff in Hb as [Hb _].
  apply orb_false_iff in Hb as [Hr _].
  lazy zeta. destruct (recRunning _); cbn [snd]; unfold PhaseOk;
    state_simpl; rewrite ?Hr; reflexivity.
Qed.

Lemma phase_not_recording (v : bool) (s : State) :
  PhaseOk (set_isRecognitionStarting v (set_isRecording false s)).
Proof. reflexivity. Qed.

Lemma phase_not_starting (s : State) :
  PhaseOk (set_isRecognitionStarting false s).
Proof. unfold PhaseOk. state_simpl. apply andb_false_r. Qed.

Ltac phase_special _ :=
  lazymatch goal with
  | |- PhaseOk (safeStartRecognition _).2 => apply phase_safeStart
  | |- PhaseOk (snd (safeStartRecognition _)) => apply phase_safeStart
  | |- PhaseOk (set_isRecognitionStarting _ (set_isRecording false _)) =>
      apply phase_not_recording
  | |- PhaseOk (set_isRecognitionStarting false _) => apply phase_not_starting
  end.

Lemma phase_step (s : State) (e : Event) : PhaseOk s -> PhaseOk (step s e).
Proof. intros H. drive phase_ext phase_special. Qed.

Lemma phase_initial (r y : bool) : PhaseOk (initial r y).
Proof. reflexivity. Qed.

Lemma phase_run (trace : list Event) (s : State) :
  PhaseOk s -> PhaseOk (run s trace).
Proof.
  revert s. induction trace as [|e trace IH]; intros s H; [exact H|].
  apply IH, phase_step, H.
Qed.

(** ** The two speaking flags *)

Lemma agree_ext (s s' : State) :
  isActive s' = isActive s -> isReadingAloud s' = isReadingAloud s ->
  SpeakingAgree s -> SpeakingAgree s'.
Proof. unfold SpeakingAgree. intros -> ->. trivial. Qed.

Ltac agree_special _ :=
  solve [unfold SpeakingAgree; cbn [isActive isReadingAloud set_isActive
           set_isReadingAloud set_ttsMuted set_currentSpeech
           set_currentUtterance]; reflexivity].

Lemma agree_safeStart (s : State) :
  SpeakingAgree s -> SpeakingAgree (safeStartRecognition s).2.
Proof.
  intros H. unfold safeStartRecognition.
  repeat match goal with
         | |- context [if ?b then _ else _] => destruct b
         end; exact H.
Qed.

Ltac agree_special' _ :=
  first [ agree_special tt
        | lazymatch goal with
          | |- SpeakingAgree (safeStartRecognition _).2 =>
              apply agree_safeStart
          | |- SpeakingAgree (snd (safeStartRecognition _)) =>
              apply agree_safeStart
          end ].

Lemma agree_step (s : State) (e : Event) :
  SpeakingAgree s -> SpeakingAgree (step s e).
Proof. intros H. drive agree_ext agree_special'. Qed.

Lemma agree_run (trace : list Event) (s : State) :
  SpeakingAgree s -> SpeakingAgree (run s trace).
Proof.
  revert s. induction trace as [|e trace IH]; intros s H; [exact H|].
  apply IH, agree_step, H.
Qed.

(** ** Silence of the engine *)

Lemma quiet_ext (s s' : State) :
  ttsMuted s' = ttsMuted s -> hasSynthesis s' = hasSynthesis s ->
  synthQueue s' = synthQueue s -> isReadingAloud s' = isReadingAloud s ->
  currentSpeech s' = currentSpeech s -> narrated s' = narrated s ->
  timers s' = timers s ->
  Quiet s -> Quiet s'.
Proof. unfold Quiet, EngineIdle. intros -> -> -> -> -> -> ->. trivial. Qed.

Lemma quiet_setTimeout (t : Task) (s : State) :
  isSpeakTask t = false -> Quiet s -> Quiet (setTimeout t s).
Proof.
  intros Ht [Hm He]. split; [exact Hm|]. intros Hs.
  destruct (He Hs) as (Hi & Hn & Hp). repeat split; try apply Hi; trivial.
  cbn. intros id x Hx.
  apply lookup_insert_Some in Hx as [[_ <-]|[_ Hx]]; eauto.
Qed.

Lemma quiet_clearTimeout (id : nat) (s : State) :
  Quiet s -> Quiet (clearTimeout id s).
Proof.
  intros [Hm He]. split; [exact Hm|]. intros Hs.
  destruct (He Hs) as (Hi & Hn & Hp). repeat split; try apply Hi; trivial.
  cbn. intros k x Hx. apply lookup_delete_Some in Hx as [_ Hx]. eauto.
Qed.

Lemma quiet_unmute (s : State) : Quiet s -> Quiet (set_ttsMuted false s).
Proof. intros [_ He]. split; [discriminate | exact He]. Qed.

Lemma quiet_set_isReadingAloud_false (s : State) :
  Quiet s -> Quiet (set_isReadingAloud false s).
Proof.
  unfold Quiet, EngineIdle. cbn. intros [Hm He]. split.
  - intros H. destruct (Hm H) as (? & ? & ?). auto.
  - intros H. destruct (He H) as ((? & ? & ?) & ? & ?). auto 6.
Qed.

Lemma quiet_set_currentSpeech_None (s : State) :
  Quiet s -> Quiet (set_currentSpeech None s).
Proof.
  unfold Quiet, EngineIdle. cbn. intros [Hm He]. split.
  - intros H. destruct (Hm H) as (? & ? & ?). auto.
  - intros H. destruct (He H) as ((? & ? & ?) & ? & ?). auto 6.
Qed.

Lemma quiet_dequeue (s : State) :
  Quiet s -> Quiet (set_synthQueue (tail (synthQueue s)) s).
Proof.
  unfold Quiet, EngineIdle. cbn. intros [Hm He]. split.
  - intros H. destruct (Hm H) as (Hq & ? & ?). rewrite Hq. auto.
  - intros H. destruct (He H) as ((Hq & ? & ?) & ? & ?). rewrite Hq. auto 6.
Qed.

Lemma quiet_synthCancel (s : State) : Quiet s -> Quiet (synthCancel s).
Proof.
  unfold Quiet, EngineIdle. cbn. intros [Hm He]. split.
  - intros H. destruct (Hm H) as (Hq & ? & ?). auto.
  - intros H. destruct (He H) as ((Hq & ? & ?) & ? & ?). auto 6.
Qed.

Lemma quiet_speak (text : Speech) (interrupt : bool) (s : State) :
  Quiet s -> Quiet (speak text interrupt s).
Proof.
  intros H. unfold speak.
  destruct (ttsMuted s && negb interrupt); [exact H|].
  destruct (blank text); [exact H|]. lazy zeta.
  assert (H1 : Quiet (if negb (userInteracted s)
                      then set_userInteracted true s else s))
    by (destruct (negb (userInteracted s)); [|exact H];
        eapply quiet_ext; [..|exact H]; reflexivity).
  revert H1. generalize (if negb (userInteracted s)
                         then set_userInteracted true s else s).
  intros s1 H1. destruct (hasSynthesis s1) eqn:Hs; [|exact H1].
  assert (H2 : Quiet (if interrupt && truthy (currentSpeech s1)
                      then synthCancel s1 else s1))
    by (destruct (interrupt && truthy (currentSpeech s1));
        [now apply quiet_synthCancel | exact H1]).
  assert (Hs2 : hasSynthesis (if interrupt && truthy (currentSpeech s1)
                              then synthCancel s1 else s1) = true)
    by (destruct (interrupt && truthy (currentSpeech s1)); exact Hs).
  revert H2 Hs2. generalize (if interrupt && truthy (currentSpeech s1)
                             then synthCancel s1 else s1).
  intros s2 [Hm _] Hs2. split; [exact Hm|].
  cbn. rewrite Hs2. discriminate.
Qed.

(** With an engine, the deferred start of an utterance keeps [Quiet]: it
    does nothing while muted, and otherwise the page is not muted. *)
Lemma quiet_speakTask (text : Speech) (s : State) :
  hasSynthesis s = true -> Quiet s -> Quiet (speakTask text s).
Proof.
  intros Hs H. unfold speakTask.
  destruct (ttsMuted s) eqn:Hm; cbn [orb]; [exact H|].
  destruct (negb (userInteracted s)); [exact H|].
  split; cbn; rewrite ?Hm, ?Hs; discriminate.
Qed.

Lemma quiet_speakTask_fire (text : Speech) (id : nat) (s : State) :
  Quiet s -> timers s !! id = Some (SpeakTask text) ->
  Quiet (speakTask text (clearTimeout id s)).
Proof.
  intros H Ht. apply quiet_speakTask; [|now apply quiet_clearTimeout].
  cbn. destruct (hasSynthesis s) eqn:Hs; [reflexivity|].
  destruct H as [_ He]. destruct (He Hs) as (_ & _ & Hp).
  apply Hp in Ht. discriminate.
Qed.

Lemma quiet_stopReading (s : State) : Quiet s -> Quiet (stopReading s).
Proof.
  intros H. unfold stopReading. destruct (hasSynthesis s) eqn:Hs; [|exact H].
  split; cbn; [|rewrite Hs; discriminate]. now repeat split.
Qed.

Lemma quiet_stop_speaking (s : State) :
  Quiet s -> Quiet (stopReading (set_ttsMuted true s)).
Proof.
  intros H. unfold stopReading. cbn [hasSynthesis set_ttsMuted].
  destruct (hasSynthesis s) eqn:Hs.
  - split; cbn; [|rewrite Hs; discriminate]. now repeat split.
  - destruct H as [_ He]. specialize (He Hs). split; cbn; [|tauto].
    intros _. apply He.
Qed.

Lemma quiet_utteranceOnStart (s : State) (u : Speech) (q : list Speech) :
  Quiet s -> synthQueue s = u :: q ->
  Quiet (utteranceOnStart (set_synthSpeaking true s)).
Proof.
  intros [Hm He] Hq. split; cbn.
  - intros H. destruct (Hm H) as (Hq' & _). congruence.
  - intros H. destruct (He H) as ((Hq' & _) & _). congruence.
Qed.

Lemma quiet_safeStart (s : State) :
  Quiet s -> Quiet (safeStartRecognition s).2.
Proof.
  intros H. unfold safeStartRecognition.
  repeat match goal with
         | |- context [if ?b then _ else _] => destruct b
         end; cbn [snd]; trivial; (eapply quiet_ext; [..|exact H]);
    reflexivity.
Qed.

Ltac quiet_special _ :=
  lazymatch goal with
  | |- Quiet (safeStartRecognition _).2 => apply quiet_safeStart
  | |- Quiet (setTimeout _ _) => apply quiet_setTimeout; [reflexivity|]
  | |- Quiet (clearTimeout _ _) => apply quiet_clearTimeout
  | |- Quiet (set_ttsMuted false _) => apply quiet_unmute
  | |- Quiet (set_isReadingAloud false _) =>
      apply quiet_set_isReadingAloud_false
  | |- Quiet (set_currentSpeech None _) => apply quiet_set_currentSpeech_None
  | |- Quiet (set_synthQueue (tail _) _) => apply quiet_dequeue
  | |- Quiet (speak _ _ _) => apply quiet_speak
  | |- Quiet (speakTask _ (clearTimeout _ _)) =>
      eapply quiet_speakTask_fire; eassumption
  | |- Quiet (stopReading (set_ttsMuted true _)) => apply quiet_stop_speaking
  | |- Quiet (stopReading _) => apply quiet_stopReading
  | |- Quiet (utteranceOnStart (set_synthSpeaking true _)) =>
      eapply quiet_utteranceOnStart; eassumption
  end.

Lemma quiet_step (s : State) (e : Event) : Quiet s -> Quiet (step s e).
Proof. intros H. drive quiet_ext quiet_special. Qed.

Lemma quiet_initial (r y : bool) : Quiet (initial r y).
Proof.
  split; [discriminate|]. intros _. repeat split. cbn. intros id t Ht.
  apply lookup_singleton_Some in Ht as [_ <-]. reflexivity.
Qed.

Lemma quiet_run (trace : list Event) (s : State) :
  Quiet s -> Quiet (run s trace).
Proof.
  revert s. induction trace as [|e trace IH]; intros s H; [exact H|].
  apply IH, quiet_step, H.
Qed.

(** ** Listening stays off *)

Lemma off_ext (s s' : State) :
  autoListening s' = autoListening s -> recRunning s' = recRunning s ->
  timers s' = timers s -> ListeningOff s -> ListeningOff s'.
Proof. unfold ListeningOff. intros -> -> ->. trivial. Qed.

Lemma off_setTimeout (t : Task) (s : State) :
  isStarter t = false -> ListeningOff s -> ListeningOff (setTimeout t s).
Proof.
  intros Ht (Ha & Hr & Hp). repeat split; trivial. cbn. intros id x Hx.
  apply lookup_insert_Some in Hx as [[_ <-]|[_ Hx]]; eauto.
Qed.

Lemma off_clearTimeout (id : nat) (s : State) :
  ListeningOff s -> ListeningOff (clearTimeout id s).
Proof.
  intros (Ha & Hr & Hp). repeat split; trivial. cbn. intros k x Hx.
  apply lookup_delete_Some in Hx as [_ Hx]. eauto.
Qed.

Lemma off_set_autoListening_false (s : State) :
  ListeningOff s -> ListeningOff (set_autoListening false s).
Proof. intros (Ha & Hr & Hp). now repeat split. Qed.

Lemma off_set_recRunning_false (s : State) :
  ListeningOff s -> ListeningOff (set_recRunning false s).
Proof. intros (Ha & Hr & Hp). now repeat split. Qed.

(** A restart callback does nothing when auto-listening is off. *)
Lemma off_restartTask (o : RestartOrigin) (s : State) :
  ListeningOff s -> ListeningOff (restartTask o s).
Proof.
  intros H. unfold restartTask. destruct H as (Ha & H). rewrite Ha.
  cbn [andb]. now split.
Qed.

Ltac off_special _ :=
  first
    [ match goal with
      | Ht : timers ?s !! _ = Some ?t, H : ListeningOff ?s |- _ =>
          solve [destruct H as (_ & _ & Hp); apply Hp in Ht; discriminate]
      end
    | lazymatch goal with
      | |- ListeningOff (setTimeout _ _) =>
          apply off_setTimeout; [reflexivity|]
      | |- ListeningOff (clearTimeout _ _) => apply off_clearTimeout
      | |- ListeningOff (set_autoListening false _) =>
          apply off_set_autoListening_false
      | |- ListeningOff (set_recRunning false _) =>
          apply off_set_recRunning_false
      | |- ListeningOff (restartTask _ _) => apply off_restartTask
      end ].

Lemma off_step (s : State) (e : Event) :
  isPermissionAnswer e = false -> ListeningOff s -> ListeningOff (step s e).
Proof.
  intros He H. destruct e; try discriminate; cbn [step];
    drive off_ext off_special.
Qed.

Lemma off_run (trace : list Event) (s : State) :
  Forall (fun e => isPermissionAnswer e = false) trace ->
  ListeningOff s -> ListeningOff (run s trace).
Proof.
  revert s. induction trace as [|e trace IH]; intros s Hall H; [exact H|].
  inversion Hall; subst. apply IH; [assumption|]. now apply off_step.
Qed.

(** ** More facts about the string primitives *)

Section MoreStringFacts.
Import Str.

Lemma isSpace_lowerChar (c : ascii) : isSpace (lowerChar c) = isSpace c.
Proof.
  destruct c as [[] [] [] [] [] [] [] []]; reflexivity.
Qed.

Lemma lowerChar_idem (c : ascii) : lowerChar (lowerChar c) = lowerChar c.
Proof.
  destruct c as [[] [] [] [] [] [] [] []]; reflexivity.
Qed.

Lemma toLowerCase_idem (s : string) :
  toLowerCase (toLowerCase s) = toLowerCase s.
Proof.
  induction s as [|c s IH]; [reflexivity|].
  cbn. now rewrite lowerChar_idem, IH.
Qed.

Lemma isEmpty_map (f : ascii -> ascii) (s : string) :
  isEmpty (map f s) = isEmpty s.
Proof. now destruct s. Qed.

Lemma trimStart_toLowerCase (s : string) :
  trimStart (toLowerCase s) = toLowerCase (trimStart s).
Proof.
  induction s as [|c s IH]; [reflexivity|].
  cbn. rewrite isSpace_lowerChar. now destruct (isSpace c).
Qed.

Lemma trimEnd_toLowerCase (s : string) :
  trimEnd (toLowerCase s) = toLowerCase (trimEnd s).
Proof.
  induction s as [|c s IH]; [reflexivity|].
  cbn. fold (toLowerCase s). rewrite IH, isSpace_lowerChar.
  unfold toLowerCase at 1. rewrite isEmpty_map.
  now destruct (isSpace c && isEmpty (trimEnd s)).
Qed.

Lemma trim_toLowerCase (s : string) :
  trim (toLowerCase s) = toLowerCase (trim s).
Proof.
  unfold trim. now rewrite trimStart_toLowerCase, trimEnd_toLowerCase.
Qed.

Lemma trimEnd_idem (s : string) : trimEnd (trimEnd s) = trimEnd s.
Proof.
  induction s as [|c s IH]; [reflexivity|].
  cbn. destruct (isSpace c && isEmpty (trimEnd s)) eqn:Hb; [reflexivity|].
  cbn. now rewrite IH, Hb.
Qed.

Lemma headOk_trimStart (s : string) : headOk (trimStart s) = true.
Proof.
  induction s as [|c s IH]; [reflexivity|].
  cbn. destruct (isSpace c) eqn:Hc; [exact IH|]. cbn. now rewrite Hc.
Qed.

Lemma trimStart_headOk (s : string) : headOk s = true -> trimStart s = s.
Proof.
  destruct s as [|c s]; [reflexivity|]. cbn.
  now destruct (isSpace c).
Qed.

Lemma headOk_trimEnd (s : string) :
  headOk s = true -> headOk (trimEnd s) = true.
Proof.
  destruct s as [|c s]; [reflexivity|]. cbn [headOk trimEnd].
  intros Hc. apply negb_true_iff in Hc. rewrite Hc. cbn. now rewrite Hc.
Qed.

Lemma trim_idem (s : string) : trim (trim s) = trim s.
Proof.
  unfold trim.
  rewrite (trimStart_headOk (trimEnd (trimStart s)))
    by apply headOk_trimEnd, headOk_trimStart.
  apply trimEnd_idem.
Qed.

End MoreStringFacts.

(** ** More about the parser *)

Ltac split_ifs :=
  repeat match goal with
         | |- context [if ?b then _ else _] => destruct b eqn:?
         end.

(** The rules after the stop and resume rules look at the raw utterance in
    one place only: the last fallback, which returns it as the player
    name. *)
Lemma sectionRule_raw (raw1 raw2 lower : string) :
  Parser.sectionRule raw1 lower = Parser.sectionRule raw2 lower
  \/ (Parser.sectionRule raw1 lower
      = mkIntent search_player (Some raw1) None None
      /\ Parser.sectionRule raw2 lower
         = mkIntent search_player (Some raw2) None None).
Proof.
  unfold Parser.sectionRule, Parser.favoriteRules, Parser.compareRule,
    Parser.clubRule, Parser.playerStatsRule.
  split_ifs; auto.
Qed.

Lemma sectionRule_not_control (raw lower : string) :
  action (Parser.sectionRule raw lower) <> stop_speaking
  /\ action (Parser.sectionRule raw lower) <> resume_speaking.
Proof.
  unfold Parser.sectionRule, Parser.favoriteRules, Parser.compareRule,
    Parser.clubRule, Parser.playerStatsRule, intent.
  split_ifs; cbn [action]; split; discriminate.
Qed.





(** The parser reads an utterance up to letter case and surrounding white
    space: two utterances with the same lower-cased, trimmed form get the
    same action, and the same intent altogether unless both fall to the last
    fallback, which hands each its own raw text back as the player name. *)
Theorem parse_up_to_case (command1 command2 : string) :
  Str.trim (Str.toLowerCase command1) = Str.trim (Str.toLowerCase command2) ->
  action (Parser.parseVoiceCommandLocal command1)
  = action (Parser.parseVoiceCommandLocal command2)
  /\ (Parser.parseVoiceCommandLocal command1
      = Parser.parseVoiceCommandLocal command2
      \/ (Parser.parseVoiceCommandLocal command1
          = mkIntent search_player (Some command1) None None
          /\ Parser.parseVoiceCommandLocal command2
             = mkIntent search_player (Some command2) None None)).
Proof.
  intros H. unfold Parser.parseVoiceCommandLocal. rewrite H.
  destruct (Parser.isStopCommand _); [auto|].
  destruct (_ || _); [auto|].
  destruct (sectionRule_raw command1 command2
              (Str.trim (Str.toLowerCase command2))) as [E|[E1 E2]].
  - rewrite E. auto.
  - rewrite E1, E2. auto.
Qed.

Lemma parse_up_to_case_witness :
  Str.trim (Str.toLowerCase "  Compare MESSI and Ronaldo ")
  = Str.trim (Str.toLowerCase "compare messi and ronaldo")
  /\ action (Parser.parseVoiceCommandLocal "  Compare MESSI and Ronaldo ")
     = action (Parser.parseVoiceCommandLocal "compare messi and ronaldo").
Proof.
  assert (H : Str.trim (Str.toLowerCase "  Compare MESSI and Ronaldo ")
              = Str.trim (Str.toLowerCase "compare messi and ronaldo"))
    by (vm_compute; reflexivity).
  split; [exact H|].
  exact (proj1 (parse_up_to_case "  Compare MESSI and Ronaldo "
                  "compare messi and ronaldo" H)).
Defined.

(** Only their own rules give the two control actions: the parser answers
    [stop_speaking] exactly when the stop test holds, and [resume_speaking]
    exactly when it does not and the utterance contains "resume talking",
    "start talking" or "start reading". *)
Theorem control_actions_exact (command : string) :
  let commandLower := Str.trim (Str.toLowerCase command) in
  (action (Parser.parseVoiceCommandLocal command) = stop_speaking
   <-> Parser.isStopCommand commandLower = true)
  /\ (action (Parser.parseVoiceCommandLocal command) = resume_speaking
      <-> Parser.isStopCommand commandLower = false
          /\ (Str.includes commandLower "resume talking"
              || Str.includes commandLower "start talking"
              || Str.includes commandLower "start reading") = true).
Proof.
  cbv zeta. unfold Parser.parseVoiceCommandLocal.
  destruct (sectionRule_not_control command
              (Str.trim (Str.toLowerCase command))) as [Hs Hr].
  destruct (Parser.isStopCommand _); [cbn; intuition congruence|].
  destruct (_ || _); cbn; intuition congruence.
Qed.


(** The early stop test of [recognition.onresult] agrees with the parser:
    a transcript it takes for a stop command is one that
    [processVoiceCommand] would have parsed to [stop_speaking]. *)
Theorem onresult_stop_is_parser_stop (rawTranscript : string) :
  isStopTranscript (Str.toLowerCase (Str.trim rawTranscript)) = true ->
  Parser.parseVoiceCommandLocal (Str.trim rawTranscript)
  = intent stop_speaking.
Proof.
  intros H. unfold Parser.parseVoiceCommandLocal.
  rewrite trim_toLowerCase, trim_idem.
  enough (Parser.isStopCommand (Str.toLowerCase (Str.trim rawTranscript))
          = true) as -> by reflexivity.
  unfold isStopTranscript in H. unfold Parser.isStopCommand.
  repeat (apply orb_prop in H as [H|H]); rewrite H;
    rewrite ?orb_true_r; reflexivity.
Qed.

Lemma onresult_stop_is_parser_stop_witness :
  isStopTranscript (Str.toLowerCase (Str.trim " Please Shut Up ")) = true
  /\ Parser.parseVoiceCommandLocal (Str.trim " Please Shut Up ")
     = intent stop_speaking.
Proof.
  assert (H : isStopTranscript
                (Str.toLowerCase (Str.trim " Please Shut Up ")) = true)
    by (vm_compute; reflexivity).
  split; [exact H|].
  exact (onresult_stop_is_parser_stop " Please Shut Up " H).
Defined.

(** *** Extracted names *)

Section Collapse.
Import Str.

Lemma collapsedFrom_weaken (s : string) :
  collapsedFrom true s = true -> collapsedFrom false s = true.
Proof.
  destruct s as [|c s]; [reflexivity|]. cbn.
  destruct (isSpace c); [discriminate | trivial].
Qed.

Lemma collapseFrom_fixed (inRun : bool) (s : string) :
  collapsedFrom inRun s = true -> collapseFrom inRun s = s.
Proof.
  revert inRun. induction s as [|c s IH]; intros inRun; [reflexivity|].
  cbn. destruct (isSpace c).
  - destruct inRun; [discriminate|]. cbn.
    intros [Hc Hs]%andb_prop. apply Ascii.eqb_eq in Hc. subst c.
    now rewrite (IH true Hs).
  - intros Hs. now rewrite (IH false Hs).
Qed.

Lemma collapsedFrom_collapseFrom (inRun : bool) (s : string) :
  collapsedFrom inRun (collapseFrom inRun s) = true.
Proof.
  revert inRun. induction s as [|c s IH]; intros inRun; [reflexivity|].
  cbn. destruct (isSpace c) eqn:Hc.
  - destruct inRun; [apply IH|]. cbn. apply IH.
  - cbn. rewrite Hc. apply IH.
Qed.

Lemma collapsedFrom_trimStart (s : string) :
  collapsedFrom false s = true -> collapsedFrom false (trimStart s) = true.
Proof.
  destruct s as [|c s]; [trivial|].
  cbn [collapsedFrom trimStart]. destruct (isSpace c) eqn:Hc.
  - intros [_ Hs]%andb_prop.
    destruct s as [|d s]; [reflexivity|].
    cbn [trimStart]. cbn [collapsedFrom] in Hs.
    destruct (isSpace d) eqn:Hd; [discriminate|].
    cbn [collapsedFrom]. now rewrite Hd.
  - intros Hs. cbn [collapsedFrom]. now rewrite Hc.
Qed.

Lemma collapsedFrom_trimEnd (inRun : bool) (s : string) :
  collapsedFrom inRun s = true -> collapsedFrom inRun (trimEnd s) = true.
Proof.
  revert inRun. induction s as [|c s IH]; intros inRun; [trivial|].
  cbn. destruct (isSpace c) eqn:Hc; cbn.
  - intros [H1 Hs]%andb_prop.
    destruct (isEmpty (trimEnd s)); [reflexivity|].
    cbn. rewrite Hc, H1. cbn. now apply IH.
  - intros Hs. cbn. rewrite Hc. now apply IH.
Qed.

End Collapse.

(** The name [extractNameFromCommand] returns is tidy, whatever it is given:
    trimming it or collapsing its white space again changes nothing. *)
Theorem extractName_tidy (commandLower : string) (wordsToRemove : list string) :
  let name := Parser.extractNameFromCommand commandLower wordsToRemove in
  Str.trim name = name /\ Str.collapseSpaces name = name
  /\ collapsedFrom false name = true /\ headOk name = true.
Proof.
  cbv zeta. unfold Parser.extractNameFromCommand.
  set (x := foldl _ _ _).
  assert (Hc : collapsedFrom false (Str.trim (Str.collapseSpaces x)) = true).
  { unfold Str.trim. apply collapsedFrom_trimEnd, collapsedFrom_trimStart.
    apply collapsedFrom_collapseFrom. }
  split; [apply trim_idem|]. split; [now apply collapseFrom_fixed|].
  split; [exact Hc|]. unfold Str.trim.
  apply headOk_trimEnd, headOk_trimStart.
Qed.

(** ** Invariants of the reachable states *)

Lemma reachable_run (r y : bool) (trace : list Event) :
  reachable (run (initial r y) trace).
Proof. now exists r, y, trace. Qed.

(** The input controller is never listening and starting at once: on every
    path that sets one of [isRecording] and [isRecognitionStarting], the
    other is clear. *)
Theorem never_listening_and_starting (s : State) :
  reachable s -> isRecording s && isRecognitionStarting s = false.
Proof.
  intros (r & y & trace & ->). apply phase_run, phase_initial.
Qed.

Lemma never_listening_and_starting_witness :
  let s := run (initial true true)
             [ToggleVoice false; PermissionAnswer Toggle Granted] in
  reachable s
  /\ isRecognitionStarting s = true
  /\ isRecording s && isRecognitionStarting s = false.
Proof.
  split; [apply reachable_run|]. split; [reflexivity|].
  exact (never_listening_and_starting _ (reachable_run true true _)).
Defined.

Lemma agree_reachable (s : State) : reachable s -> SpeakingAgree s.
Proof. intros (r & y & trace & ->). now apply agree_run. Qed.

Lemma quiet_reachable (s : State) : reachable s -> Quiet s.
Proof. intros (r & y & trace & ->). apply quiet_run, quiet_initial. Qed.

Lemma reading_has_engine (s : State) :
  reachable s -> isReadingAloud s = true -> hasSynthesis s = true.
Proof.
  intros Hr Hread. destruct (hasSynthesis s) eqn:Hs; [reflexivity|].
  destruct (quiet_reachable s Hr) as [_ He].
  destruct (He Hs) as ((_ & H & _) & _). congruence.
Qed.

(** [TTSManager.isActive] and [isReadingAloud] always hold the same value. *)
Theorem speaking_flags_agree (s : State) :
  reachable s -> isActive s = isReadingAloud s.
Proof. exact (agree_reachable s). Qed.

Lemma speaking_flags_agree_witness :
  let s := run (initial true true)
             [SubmitSearch "messi"; SearchDone (SearchFailed "no answer");
              TimerFire 2; UttStart] in
  reachable s /\ isReadingAloud s = true /\ isActive s = isReadingAloud s.
Proof.
  split; [apply reachable_run|]. split; [reflexivity|].
  exact (speaking_flags_agree _ (reachable_run true true _)).
Defined.

(** While the page is muted the synthesis engine is idle: it holds no
    utterance, none is being read, and [currentSpeech] is [null]. *)
Theorem muted_engine_idle (s : State) :
  reachable s -> ttsMuted s = true ->
  synthQueue s = [] /\ isReadingAloud s = false /\ isActive s = false
  /\ currentSpeech s = None.
Proof.
  intros Hr Hm. destruct (quiet_reachable s Hr) as [Hq _].
  destruct (Hq Hm) as (H1 & H2 & H3).
  rewrite (agree_reachable s Hr). auto.
Qed.

Lemma muted_engine_idle_witness :
  let s := run (initial true true)
             [SubmitSearch "messi"; SearchDone (SearchFailed "no answer");
              TimerFire 2; UttStart; StopButton] in
  (reachable s /\ ttsMuted s = true)
  /\ synthQueue s = [] /\ isReadingAloud s = false.
Proof.
  split; [split; [apply reachable_run | reflexivity]|].
  destruct (muted_engine_idle _ (reachable_run true true
              [SubmitSearch "messi"; SearchDone (SearchFailed "no answer");
               TimerFire 2; UttStart; StopButton]) eq_refl)
    as (H1 & H2 & _).
  split; assumption.
Defined.

(** In a browser without [speechSynthesis] the page never narrates: nothing
    is ever handed to an engine, no utterance waits for its timer, and the
    speaking flags stay clear. *)
Theorem no_engine_no_narration (s : State) :
  reachable s -> hasSynthesis s = false ->
  narrated s = [] /\ synthQueue s = [] /\ isReadingAloud s = false
  /\ isActive s = false
  /\ forall id text, timers s !! id <> Some (SpeakTask text).
Proof.
  intros Hr Hs. destruct (quiet_reachable s Hr) as [_ He].
  destruct (He Hs) as ((H1 & H2 & H3) & Hn & Hp).
  rewrite (agree_reachable s Hr). repeat split; trivial.
  intros id text Ht. apply Hp in Ht. discriminate.
Qed.

Lemma no_engine_no_narration_witness :
  let s := run (initial true false)
             [SubmitSearch "messi"; SearchDone (SearchFailed "no answer");
              RecError not_allowed] in
  (reachable s /\ hasSynthesis s = false) /\ narrated s = [].
Proof.
  split; [split; [apply reachable_run | reflexivity]|].
  exact (proj1 (no_engine_no_narration _ (reachable_run true false
                  [SubmitSearch "messi";
                   SearchDone (SearchFailed "no answer");
                   RecError not_allowed]) eq_refl)).
Defined.

(** Barge-in: a final, non-blank transcript that arrives while an utterance
    is being read stops the output before anything is dispatched: when
    [onresult] reaches its [await], the engine's queue is empty, the
    speaking flags are clear and the page is muted. *)
Theorem barge_in_stops_output (s : State) (rawTranscript : string) :
  reachable s -> isReadingAloud s = true ->
  Str.isEmpty (Str.trim rawTranscript) = false ->
  let s1 := step s (RecResult true rawTranscript) in
  synthQueue s1 = [] /\ isReadingAloud s1 = false /\ isActive s1 = false
  /\ currentSpeech s1 = None /\ ttsMuted s1 = true
  /\ narrated s1 = narrated s.
Proof.
  intros Hr Hread Hne s1.
  pose proof (reading_has_engine s Hr Hread) as Hs.
  subst s1. cbn [step]. unfold recognitionOnResult.
  cbn [negb]. rewrite Hne. state_simpl. rewrite Hread.
  unfold stopReading. state_simpl. rewrite Hs. state_simpl.
  destruct (isStopTranscript _); state_simpl; rewrite ?Hs; state_simpl;
    auto 10.
Qed.

Lemma barge_in_stops_output_witness :
  let s := run (initial true true)
             [SubmitSearch "messi"; SearchDone (SearchFailed "no answer");
              TimerFire 2; UttStart] in
  (reachable s /\ isReadingAloud s = true
   /\ Str.isEmpty (Str.trim "ronaldo stats") = false)
  /\ synthQueue (step s (RecResult true "ronaldo stats")) = [].
Proof.
  split; [split; [apply reachable_run | split; reflexivity]|].
  exact (proj1 (barge_in_stops_output _ "ronaldo stats"
                  (reachable_run true true
                     [SubmitSearch "messi";
                      SearchDone (SearchFailed "no answer"); TimerFire 2;
                      UttStart]) eq_refl eq_refl)).
Defined.

(** Once listening is switched off (auto-listening off, the engine's
    session over, no first start pending), nothing that happens on its own
    accord starts the recogniser again: whatever timers fire, whatever the
    engines report and the lookups answer, and whatever is said or clicked,
    the engine gets no new session until a microphone permission request is
    answered. *)
Theorem listening_stays_off (s : State) (trace : list Event) :
  ListeningOff s ->
  Forall (fun e => isPermissionAnswer e = false) trace ->
  recRunning (run s trace) = false /\ autoListening (run s trace) = false
  /\ ListeningOff (run s trace).
Proof.
  intros H Hall. pose proof (off_run trace s Hall H) as H'.
  destruct H' as (Ha & Hrun & Hp). repeat split; trivial.
Qed.

Lemma listening_stays_off_witness :
  let s := run (initial true true)
             [TimerFire 1; PermissionAnswer PageLoad Granted; TimerFire 2;
              RecStart; ToggleVoice false; RecEnd] in
  let trace := [RecError no_speech; RecEnd; SubmitSearch "messi";
                SearchDone (SearchFailed "no answer"); TimerFire 3;
                UttStart; UttEnd; ToggleVoice false] in
  (ListeningOff s /\ Forall (fun e => isPermissionAnswer e = false) trace)
  /\ recRunning (run s trace) = false.
Proof.
  assert (H : ListeningOff
                (run (initial true true)
                   [TimerFire 1; PermissionAnswer PageLoad Granted;
                    TimerFire 2; RecStart; ToggleVoice false; RecEnd])).
  { repeat split. intros id t Ht. vm_compute in Ht. discriminate. }
  assert (Hall : Forall (fun e => isPermissionAnswer e = false)
                   [RecError no_speech; RecEnd; SubmitSearch "messi";
                    SearchDone (SearchFailed "no answer"); TimerFire 3;
                    UttStart; UttEnd; ToggleVoice false])
    by (repeat constructor).
  split; [split; assumption|].
  exact (proj1 (listening_stays_off _ _ H Hall)).
Defined.

(** ** The favourites store *)

Section FavoritesFacts.
Import Favorites.

Lemma same_eq (a b : option string) : same a b = true <-> a = b.
Proof.
  destruct a, b; cbn; try easy.
  rewrite String.eqb_eq. split; congruence.
Qed.

Lemma isPlayer_key (playerId : string) (f : Favorite) :
  isPlayer playerId f = true <-> key f = (player, Some playerId).
Proof.
  unfold isPlayer, key. destruct (type f); cbn.
  - rewrite same_eq. split; congruence.
  - split; [discriminate | congruence].
Qed.

Lemma isClub_key (clubId : string) (f : Favorite) :
  isClub clubId f = true <-> key f = (club, Some clubId).
Proof.
  unfold isClub, key. destruct (type f); cbn.
  - split; [discriminate | congruence].
  - rewrite same_eq. split; congruence.
Qed.

Lemma sameEntry_key (entry f : Favorite) :
  sameEntry entry f = true <-> key f = key entry.
Proof.
  unfold sameEntry, key. destruct (type entry), (type f);
    rewrite ?same_eq; split; congruence.
Qed.

Lemma existsb_key (p : Favorite -> bool) (k : FavoriteType * option string)
    (l : list Favorite) :
  (forall f, p f = true <-> key f = k) ->
  existsb p l = true <-> In k (List.map key l).
Proof.
  intros Hp. rewrite existsb_exists, in_map_iff.
  split; intros (f & H1 & H2); exists f.
  - apply Hp in H2. auto.
  - apply Hp in H1. auto.
Qed.

Lemma spliceFirst_In (p : Favorite -> bool) (l : list Favorite)
    (k : FavoriteType * option string) :
  In k (List.map key (spliceFirst p l)) -> In k (List.map key l).
Proof.
  induction l as [|f l IH]; [trivial|]. cbn.
  destruct (p f); cbn; intuition.
Qed.

Lemma spliceFirst_NoDup (p : Favorite -> bool) (l : list Favorite) :
  List.NoDup (List.map key l) -> List.NoDup (List.map key (spliceFirst p l)).
Proof.
  induction l as [|f l IH]; [trivial|]. cbn.
  intros [Hn Hl]%List.NoDup_cons_iff. destruct (p f); [exact Hl|].
  cbn. apply List.NoDup_cons_iff. split; [|auto].
  intros H. apply Hn. eapply spliceFirst_In, H.
Qed.

Lemma filter_NoDup (q : Favorite -> bool) (l : list Favorite) :
  List.NoDup (List.map key l) -> List.NoDup (List.map key (List.filter q l)).
Proof.
  induction l as [|f l IH]; [trivial|]. cbn.
  intros [Hn Hl]%List.NoDup_cons_iff. destruct (q f); [|auto].
  cbn. apply List.NoDup_cons_iff. split; [|auto].
  intros H. apply Hn. apply in_map_iff in H as (g & Hg & Hin).
  apply filter_In in Hin as [Hin _]. apply in_map_iff. eauto.
Qed.

Lemma snoc_NoDup (e : Favorite) (l : list Favorite) :
  ~ In (key e) (List.map key l) ->
  List.NoDup (List.map key l) -> List.NoDup (List.map key (l ++ [e])).
Proof.
  intros Hn Hl. rewrite List.map_app. cbn.
  apply List.NoDup_app; repeat split; trivial.
  - repeat constructor. intros [].
  - intros k Hk [<-|[]]. contradiction.
Qed.

Lemma byName_filter (q : Favorite -> bool) (l : list Favorite) :
  (if (List.length (List.filter q l) =? List.length l)%nat then l
   else List.filter q l) = List.filter q l.
Proof.
  destruct (_ =? _)%nat eqn:He; [|reflexivity].
  apply Nat.eqb_eq in He. clear -He.
  induction l as [|f l IH]; [reflexivity|]. cbn in *.
  destruct (q f); cbn in He.
  - f_equal. apply IH. lia.
  - pose proof (List.filter_length_le q l). lia.
Qed.

(** The store never holds the same player or the same club twice: every
    operation that saves the list keeps its entries distinct by type and
    id. *)
Theorem store_keeps_entries_distinct (favorites : list Favorite) :
  List.NoDup (List.map key favorites) ->
  (forall playerId playerName clubName now,
      List.NoDup (List.map key
        (toggleFavorite playerId playerName clubName now favorites)))
  /\ (forall clubId clubName now,
        List.NoDup (List.map key
          (toggleClubFavorite clubId clubName now favorites)))
  /\ (forall entry,
        List.NoDup (List.map key (addFavoriteEntry entry favorites)))
  /\ (forall id type,
        List.NoDup (List.map key (removeFavorite id type favorites)))
  /\ (forall name,
        List.NoDup (List.map key (removePlayerFavoriteByName name favorites))
        /\ List.NoDup
             (List.map key (removeClubFavoriteByName name favorites))).
Proof.
  intros Hl. repeat split.
  - intros playerId playerName clubName now. unfold toggleFavorite.
    destruct (existsb _ _) eqn:He; [now apply spliceFirst_NoDup|].
    apply snoc_NoDup; [|exact Hl]. cbn.
    intros Hin. apply (existsb_key (isPlayer playerId)) in Hin;
      [congruence | apply isPlayer_key].
  - intros clubId clubName now. unfold toggleClubFavorite.
    destruct (existsb _ _) eqn:He; [now apply spliceFirst_NoDup|].
    apply snoc_NoDup; [|exact Hl]. cbn.
    intros Hin. apply (existsb_key (isClub clubId)) in Hin;
      [congruence | apply isClub_key].
  - intros entry. unfold addFavoriteEntry.
    destruct (existsb _ _) eqn:He; [exact Hl|].
    apply snoc_NoDup; [|exact Hl].
    intros Hin. apply (existsb_key (sameEntry entry)) in Hin;
      [congruence | apply sameEntry_key].
  - intros id type. now apply filter_NoDup.
  - unfold removePlayerFavoriteByName. cbv zeta. rewrite byName_filter.
    now apply filter_NoDup.
  - unfold removeClubFavoriteByName. cbv zeta. rewrite byName_filter.
    now apply filter_NoDup.
Qed.

Lemma store_keeps_entries_distinct_witness :
  let favorites :=
    [mkFavorite player (Some "28003") (Some "Lionel Messi") None
       (Some "Inter Miami") None "2024-01-01T00:00:00.000Z"] in
  List.NoDup (List.map key favorites)
  /\ List.NoDup (List.map key
       (toggleClubFavorite "131" "FC Barcelona" "2024-01-02T00:00:00.000Z"
          favorites)).
Proof.
  assert (H : List.NoDup (List.map key
                [mkFavorite player (Some "28003") (Some "Lionel Messi") None
                   (Some "Inter Miami") None "2024-01-01T00:00:00.000Z"]))
    by (repeat constructor; intros []).
  split; [exact H|].
  destruct (store_keeps_entries_distinct _ H) as (_ & Hc & _).
  exact (Hc "131" "FC Barcelona" "2024-01-02T00:00:00.000Z").
Defined.

Lemma spliceFirst_snoc (p : Favorite -> bool) (l : list Favorite)
    (e : Favorite) :
  existsb p l = false -> p e = true -> spliceFirst p (l ++ [e]) = l.
Proof.
  induction l as [|f l IH]; cbn; intros Hl He; [now rewrite He|].
  apply orb_false_iff in Hl as [Hf Hl]. rewrite Hf. f_equal. auto.
Qed.

Lemma spliceFirst_filter (p : Favorite -> bool) (k : FavoriteType * option string)
    (l : list Favorite) :
  (forall f, p f = true <-> key f = k) ->
  List.NoDup (List.map key l) ->
  spliceFirst p l = List.filter (fun f => negb (p f)) l.
Proof.
  intros Hp. induction l as [|f l IH]; [reflexivity|]. cbn.
  intros [Hn Hl]%List.NoDup_cons_iff. destruct (p f) eqn:Hf; cbn.
  - symmetry. apply Hp in Hf. clear IH Hl.
    induction l as [|g l IH]; [reflexivity|]. cbn in *.
    destruct (p g) eqn:Hg.
    + apply Hp in Hg. exfalso. apply Hn. left. congruence.
    + cbn. f_equal. apply IH. intuition.
  - f_equal. auto.
Qed.

Lemma existsb_filter_negb (p : Favorite -> bool) (l : list Favorite) :
  existsb p (List.filter (fun f => negb (p f)) l) = false.
Proof.
  induction l as [|f l IH]; [reflexivity|]. cbn.
  destruct (p f) eqn:Hf; cbn; [exact IH|]. now rewrite Hf.
Qed.

Lemma toggle_player (favorites : list Favorite)
    (playerId playerName clubName now : string) :
  List.NoDup (List.map key favorites) ->
  existsb (isPlayer playerId)
    (toggleFavorite playerId playerName clubName now favorites)
  = negb (existsb (isPlayer playerId) favorites)
  /\ (existsb (isPlayer playerId) favorites = true ->
      toggleFavorite playerId playerName clubName now favorites
      = removeFavorite playerId player favorites)
  /\ (existsb (isPlayer playerId) favorites = false ->
      forall playerName' clubName' now',
        toggleFavorite playerId playerName' clubName' now'
          (toggleFavorite playerId playerName clubName now favorites)
        = favorites).
Proof.
  intros Hl.
  assert (Hself : isPlayer playerId
                    (mkFavorite player (Some playerId) (Some playerName)
                       None (Some clubName) None now) = true)
    by (unfold isPlayer; cbn; apply String.eqb_refl).
  unfold toggleFavorite. destruct (existsb _ favorites) eqn:He; cbn [negb].
  - rewrite (spliceFirst_filter _ _ _ (isPlayer_key playerId) Hl).
    split; [apply existsb_filter_negb|]. split; [reflexivity | discriminate].
  - split; [|split; [discriminate|]].
    + rewrite existsb_app. cbn [existsb]. rewrite Hself.
      apply orb_true_r.
    + intros _ playerName' clubName' now'.
      rewrite existsb_app. cbn [existsb]. rewrite Hself, !orb_true_r.
      now apply spliceFirst_snoc.
Qed.

(** [toggleFavorite] flips whether the player is a favourite, as long as
    the store holds no entry twice: switching a favourite off removes the
    same entries as [removeFavorite], and switching a new one on and off
    again gives the stored list back. *)
Theorem toggleFavorite_flips (favorites : list Favorite)
    (playerId playerName clubName now : string) :
  List.NoDup (List.map key favorites) ->
  existsb (isPlayer playerId)
    (toggleFavorite playerId playerName clubName now favorites)
  = negb (existsb (isPlayer playerId) favorites)
  /\ (existsb (isPlayer playerId) favorites = true ->
      toggleFavorite playerId playerName clubName now favorites
      = removeFavorite playerId player favorites)
  /\ (existsb (isPlayer playerId) favorites = false ->
      forall playerName' clubName' now',
        toggleFavorite playerId playerName' clubName' now'
          (toggleFavorite playerId playerName clubName now favorites)
        = favorites).
Proof. exact (toggle_player favorites playerId playerName clubName now). Qed.

Lemma toggleFavorite_flips_witness :
  let favorites :=
    [mkFavorite club None None (Some "131") (Some "FC Barcelona") None
       "2024-01-02T00:00:00.000Z"] in
  List.NoDup (List.map key favorites)
  /\ existsb (isPlayer "28003")
       (toggleFavorite "28003" "Lionel Messi" "Inter Miami"
          "2024-01-03T00:00:00.000Z" favorites) = true.
Proof.
  assert (H : List.NoDup (List.map key
                [mkFavorite club None None (Some "131") (Some "FC Barcelona")
                   None "2024-01-02T00:00:00.000Z"]))
    by (repeat constructor; intros []).
  split; [exact H|].
  exact (proj1 (toggleFavorite_flips _ "28003" "Lionel Messi" "Inter Miami"
                  "2024-01-03T00:00:00.000Z" H)).
Defined.

(** After [removeFavorite(id, type)] no entry of that type with that id is
    left, whatever the list held (also when it held the entry more than
    once); every other entry is kept; and removing an id that is not there,
    or removing twice, changes nothing more. *)
Theorem removeFavorite_removes (favorites : list Favorite) (id : string) :
  (existsb (isPlayer id) (removeFavorite id player favorites) = false
   /\ existsb (isClub id) (removeFavorite id club favorites) = false)
  /\ (forall type f,
        In f (removeFavorite id type favorites)
        <-> In f favorites
            /\ (match type with
                | player => isPlayer id f
                | club => isClub id f
                end) = false)
  /\ (forall type,
        removeFavorite id type (removeFavorite id type favorites)
        = removeFavorite id type favorites)
  /\ (existsb (isPlayer id) favorites = false ->
      removeFavorite id player favorites = favorites)
  /\ (existsb (isClub id) favorites = false ->
      removeFavorite id club favorites = favorites).
Proof.
  assert (Hkeep : forall (p : Favorite -> bool) (l : list Favorite),
             existsb p l = false ->
             List.filter (fun f => negb (p f)) l = l).
  { intros p l. induction l as [|f l IH]; [reflexivity|]. cbn.
    intros [Hf Hl]%orb_false_iff. rewrite Hf. cbn. f_equal. auto. }
  split; [split; apply existsb_filter_negb|].
  split.
  { intros type f. unfold removeFavorite. rewrite filter_In.
    destruct type; rewrite negb_true_iff; reflexivity. }
  split.
  { intros type. unfold removeFavorite.
    destruct type; apply Hkeep, existsb_filter_negb. }
  split; apply Hkeep.
Qed.

(** [addFavoriteEntry] never stores an entry twice: when an entry of the
    same type and id is already there the list is left exactly as it is
    (the old entry is not updated); otherwise the entry goes to the end.
    Either way the entry is then a favourite, nothing else is lost, and
    adding it again changes nothing. *)
Theorem addFavoriteEntry_once (entry : Favorite) (favorites : list Favorite) :
  existsb (sameEntry entry) (addFavoriteEntry entry favorites) = true
  /\ (existsb (sameEntry entry) favorites = true ->
      addFavoriteEntry entry favorites = favorites)
  /\ (existsb (sameEntry entry) favorites = false ->
      addFavoriteEntry entry favorites = (favorites ++ [entry])%list)
  /\ (forall f, In f favorites -> In f (addFavoriteEntry entry favorites))
  /\ addFavoriteEntry entry (addFavoriteEntry entry favorites)
     = addFavoriteEntry entry favorites.
Proof.
  assert (Hself : sameEntry entry entry = true)
    by (now apply sameEntry_key).
  assert (H1 : existsb (sameEntry entry) (addFavoriteEntry entry favorites)
               = true).
  { unfold addFavoriteEntry. destruct (existsb _ favorites) eqn:He;
      [exact He|]. rewrite existsb_app. cbn [existsb].
    rewrite Hself. apply orb_true_r. }
  split; [exact H1|]. unfold addFavoriteEntry at 1 2 3.
  destruct (existsb _ favorites) eqn:He.
  - split; [reflexivity|]. split; [discriminate|]. split; [trivial|].
    unfold addFavoriteEntry. now rewrite He, He.
  - split; [discriminate|]. split; [reflexivity|].
    split; [intros f Hf; apply in_or_app; now left|].
    unfold addFavoriteEntry at 1. now rewrite H1.
Qed.

(** "Add this player to favourites" is a toggle: [addCurrentPlayerFavorite]
    calls [toggleFavorite], so for a player who is already a favourite it
    takes the player out of the store, and done twice for a new player it
    leaves the store as it was.  Without a last result it does nothing. *)
Theorem addCurrentPlayerFavorite_toggles (favorites : list Favorite)
    (last : Entity) (clubName now : string) :
  List.NoDup (List.map key favorites) ->
  (existsb (isPlayer (id last)) favorites = true ->
   existsb (isPlayer (id last))
     (addCurrentPlayerFavorite (Some last) clubName now favorites) = false)
  /\ (existsb (isPlayer (id last)) favorites = false ->
      forall clubName' now',
        addCurrentPlayerFavorite (Some last) clubName' now'
          (addCurrentPlayerFavorite (Some last) clubName now favorites)
        = favorites)
  /\ addCurrentPlayerFavorite None clubName now favorites = favorites.
Proof.
  intros Hl. cbn [addCurrentPlayerFavorite].
  destruct (toggle_player favorites (id last) (name last) clubName
              now Hl) as (Hflip & _ & Hback).
  split; [intros He; now rewrite Hflip, He|].
  split; [intros He clubName' now'; now apply Hback | reflexivity].
Qed.

Lemma addCurrentPlayerFavorite_toggles_witness :
  let favorites :=
    [mkFavorite player (Some "28003") (Some "Lionel Messi") None
       (Some "Inter Miami") None "2024-01-01T00:00:00.000Z"] in
  List.NoDup (List.map key favorites)
  /\ addCurrentPlayerFavorite (Some (mkEntity "28003" "Lionel Messi"))
       "Inter Miami" "2024-01-05T00:00:00.000Z" favorites = [].
Proof.
  assert (H : List.NoDup (List.map key
                [mkFavorite player (Some "28003") (Some "Lionel Messi") None
                   (Some "Inter Miami") None "2024-01-01T00:00:00.000Z"]))
    by (repeat constructor; intros []).
  split; [exact H|].
  destruct (addCurrentPlayerFavorite_toggles _
              (mkEntity "28003" "Lionel Messi") "Inter Miami"
              "2024-01-05T00:00:00.000Z" H) as (Hoff & _).
  specialize (Hoff eq_refl).
  destruct (addCurrentPlayerFavorite _ _ _ _) as [|f l] eqn:E;
    [reflexivity|].
  vm_compute in E. discriminate.
Defined.



End FavoritesFacts.

(** ** How the handlers compose *)

(** Unmuted and with an engine, [speak] sets the timer of its utterance
    under the next timer id. *)
Lemma speak_schedules (text : Speech) (interrupt : bool) (s : State) :
  ttsMuted s = false -> blank text = false -> hasSynthesis s = true ->
  timers (speak text interrupt s)
  = <[ nextTimer s := SpeakTask text ]> (timers s)
  /\ ttsMuted (speak text interrupt s) = false
  /\ userInteracted (speak text interrupt s) = true
  /\ narrated (speak text interrupt s) = narrated s
  /\ hasSynthesis (speak text interrupt s) = true.
Proof.
  intros Hm Hb Hs. unfold speak. rewrite Hm, Hb. cbn [andb].
  destruct (userInteracted s) eqn:Hu; cbn [negb]; state_simpl;
    rewrite Hs; destruct (interrupt && _); state_simpl; auto.
Qed.

(** With results at hand, an idle engine and no mute, [readResultsAloud]
    sets the timer of the player report. *)
Lemma readResultsAloud_schedules (s : State) (r : Results) :
  searchResults s = Some r -> ttsMuted s = false ->
  isReadingAloud s = false -> isActive s = false ->
  synthSpeaking s = false -> hasSynthesis s = true ->
  timers (readResultsAloud s)
  = <[ nextTimer s := SpeakTask PlayerStatsReport ]> (timers s)
  /\ ttsMuted (readResultsAloud s) = false
  /\ userInteracted (readResultsAloud s) = true
  /\ narrated (readResultsAloud s) = narrated s
  /\ hasSynthesis (readResultsAloud s) = true.
Proof.
  intros Hres Hm Hr Ha Hsp Hs. unfold readResultsAloud, readPlayerStats.
  rewrite Hr, Ha, Hsp, Hs, Hres, Hm. cbn [orb andb].
  destruct (userInteracted s) eqn:Hu; cbn [negb]; state_simpl;
    rewrite ?Hres, ?Hm; state_simpl; rewrite ?Hu; cbn [negb].
  - now apply speak_schedules.
  - destruct (speak_schedules PlayerStatsReport true
                (set_userInteracted true s)) as (H1 & H2 & H3 & H4 & H5);
      auto.
Qed.

(** The deferred start of an utterance, unmuted. *)
Lemma speakTask_narrates (text : Speech) (s : State) :
  ttsMuted s = false -> userInteracted s = true ->
  narrated (speakTask text s) = (narrated s ++ [text])%list
  /\ synthQueue (speakTask text s) = (synthQueue s ++ [text])%list
  /\ isReadingAloud (speakTask text s) = isReadingAloud s.
Proof.
  intros Hm Hu. unfold speakTask. rewrite Hm, Hu. cbn [orb negb].
  state_simpl. auto.
Qed.

(** A successful player search is read aloud: with the output idle, the
    timer [displayResults] sets makes [readResultsAloud] schedule the player
    report, and when that timer runs the report is handed to the engine.
    Once the report is being read, the second read that [searchPlayerStats]
    has scheduled does nothing. *)
Theorem found_player_is_read_aloud (s : State) (r : Results) :
  hasSynthesis s = true -> isReadingAloud s = false -> isActive s = false ->
  synthSpeaking s = false ->
  let n := nextTimer s in
  let s1 := step s (SearchDone (Found r)) in
  let s2 := step s1 (TimerFire n) in
  let s3 := step s2 (TimerFire (n + 2)) in
  let s4 := step s3 UttStart in
  let s5 := step s4 (TimerFire (n + 1)) in
  searchResults s1 = Some r /\ ttsMuted s1 = false
  /\ timers s1 !! n = Some DisplayReadTask
  /\ timers s1 !! (n + 1) = Some ReadResultsTask
  /\ timers s2 !! (n + 2) = Some (SpeakTask PlayerStatsReport)
  /\ narrated s3 = (narrated s ++ [PlayerStatsReport])%list
  /\ last (synthQueue s3) = Some PlayerStatsReport
  /\ isReadingAloud s4 = true
  /\ narrated s5 = (narrated s ++ [PlayerStatsReport])%list
  /\ timers s5 = delete (n + 1) (timers s4).
Proof.
  intros Hs Hr Ha Hsp n s1 s2 s3 s4 s5.
  assert (E1 : s1 = setTimeout ReadResultsTask
                      (setTimeout DisplayReadTask
                         (set_searchResults (Some r) (set_ttsMuted false s))))
    by reflexivity.
  assert (Hn1 : timers s1 !! n = Some DisplayReadTask).
  { rewrite E1. state_simpl. subst n.
    rewrite lookup_insert_ne by lia. apply lookup_insert_eq. }
  assert (Hn1' : timers s1 !! (n + 1) = Some ReadResultsTask).
  { rewrite E1. state_simpl. subst n.
    replace (nextTimer s + 1) with (S (nextTimer s)) by lia.
    apply lookup_insert_eq. }
  set (s1' := clearTimeout n s1).
  assert (E2 : s2 = readResultsAloud s1').
  { subst s2. cbn [step]. rewrite Hn1. reflexivity. }
  destruct (readResultsAloud_schedules s1' r) as (T2 & M2 & U2 & N2 & S2);
    try (subst s1'; rewrite E1; state_simpl; first [reflexivity|assumption]).
  assert (Hnext : nextTimer s1' = n + 2)
    by (subst s1' n; rewrite E1; state_simpl; lia).
  rewrite Hnext in T2. rewrite <- E2 in T2, M2, U2, N2, S2.
  assert (Hn2 : timers s2 !! (n + 2) = Some (SpeakTask PlayerStatsReport))
    by (rewrite T2; apply lookup_insert_eq).
  set (s2' := clearTimeout (n + 2) s2).
  assert (E3 : s3 = speakTask PlayerStatsReport s2').
  { subst s3. cbn [step]. rewrite Hn2. reflexivity. }
  destruct (speakTask_narrates PlayerStatsReport s2') as (N3 & Q3 & R3);
    [exact M2 | exact U2 |].
  rewrite <- E3 in N3, Q3, R3.
  assert (N3' : narrated s3 = (narrated s ++ [PlayerStatsReport])%list).
  { rewrite N3. subst s2'. state_simpl. rewrite N2. subst s1'.
    state_simpl. rewrite E1. reflexivity. }
  assert (T3 : timers s3 !! (n + 1) = Some ReadResultsTask).
  { rewrite E3. unfold speakTask. subst s2'. state_simpl.
    rewrite M2, U2. cbn [orb negb]. state_simpl.
    rewrite lookup_delete_ne by lia. rewrite T2.
    rewrite lookup_insert_ne by lia. subst s1'. state_simpl.
    rewrite lookup_delete_ne by lia. exact Hn1'. }
  assert (E4 : s4 = utteranceOnStart (set_synthSpeaking true s3)).
  { subst s4. cbn [step]. rewrite Q3.
    destruct (synthQueue s2'); reflexivity. }
  assert (R4 : isReadingAloud s4 = true) by (rewrite E4; reflexivity).
  assert (E5 : s5 = clearTimeout (n + 1) s4).
  { subst s5. cbn [step].
    replace (timers s4 !! (n + 1)) with (Some ReadResultsTask)
      by (rewrite E4; symmetry; exact T3).
    cbn [runTask]. state_simpl. now rewrite R4. }
  split; [rewrite E1; reflexivity|]. split; [rewrite E1; reflexivity|].
  split; [exact Hn1|]. split; [exact Hn1'|]. split; [exact Hn2|].
  split; [exact N3'|]. split; [rewrite Q3; apply last_snoc|].
  split; [exact R4|].
  split; [rewrite E5, E4; state_simpl; exact N3' | rewrite E5; reflexivity].
Qed.

Lemma found_player_is_read_aloud_witness :
  let s := run (initial true true) [SubmitSearch "messi"] in
  (hasSynthesis s = true /\ isReadingAloud s = false /\ isActive s = false
   /\ synthSpeaking s = false)
  /\ narrated
       (run s [SearchDone (Found (mkResults (Some 2) None None None));
               TimerFire 2; TimerFire 4])
     = [PlayerStatsReport].
Proof.
  split; [repeat split|].
  destruct (found_player_is_read_aloud
              (run (initial true true) [SubmitSearch "messi"])
              (mkResults (Some 2) None None None)
              eq_refl eq_refl eq_refl eq_refl)
    as (_ & _ & _ & _ & _ & H & _).
  exact H.
Defined.

(** "Resume" reads the last result again: a [resume_speaking] intent clears
    the mute and, with a result at hand and the output idle, schedules the
    player report, which the engine is handed when the timer runs. *)
Theorem resume_reads_results_again (s : State) (transcript : string)
    (remote : option Intent) (favorites : nat) (r : Results) :
  action (chosenIntent transcript remote) = resume_speaking ->
  searchResults s = Some r -> hasSynthesis s = true ->
  isReadingAloud s = false -> isActive s = false ->
  synthSpeaking s = false ->
  let s1 := step s (CommandParsed transcript remote favorites) in
  let s2 := step s1 (TimerFire (nextTimer s)) in
  ttsMuted s1 = false
  /\ timers s1 !! nextTimer s = Some (SpeakTask PlayerStatsReport)
  /\ narrated s2 = (narrated s ++ [PlayerStatsReport])%list.
Proof.
  intros Hact Hres Hs Hr Ha Hsp s1 s2.
  assert (E1 : s1 = readResultsAloud (set_ttsMuted false s)).
  { subst s1. cbn [step]. unfold dispatch. rewrite Hact. cbv zeta.
    state_simpl. now rewrite Hres. }
  destruct (readResultsAloud_schedules (set_ttsMuted false s) r)
    as (T1 & M1 & U1 & N1 & S1); trivial.
  rewrite <- E1 in T1, M1, U1, N1, S1. state_simpl.
  assert (Hn : timers s1 !! nextTimer s = Some (SpeakTask PlayerStatsReport))
    by (rewrite T1; apply lookup_insert_eq).
  split; [exact M1|]. split; [exact Hn|].
  subst s2. cbn [step]. rewrite Hn. cbn [runTask].
  destruct (speakTask_narrates PlayerStatsReport
              (clearTimeout (nextTimer s) s1)) as (N2 & _); trivial.
  rewrite N2. state_simpl. now rewrite N1.
Qed.

Lemma resume_reads_results_again_witness :
  let s := run (initial true true)
             [SubmitSearch "messi";
              SearchDone (Found (mkResults None None None None));
              TimerFire 2; TimerFire 4; UttStart; StopButton; TimerFire 3] in
  (action (chosenIntent "resume talking" None) = resume_speaking
   /\ ttsMuted s = true /\ isReadingAloud s = false)
  /\ narrated (run s [CommandParsed "resume talking" None 0; TimerFire 5])
     = [PlayerStatsReport; PlayerStatsReport].
Proof.
  split; [repeat split|].
  destruct (resume_reads_results_again
              (run (initial true true)
                 [SubmitSearch "messi";
                  SearchDone (Found (mkResults None None None None));
                  TimerFire 2; TimerFire 4; UttStart; StopButton;
                  TimerFire 3])
              "resume talking" None 0 (mkResults None None None None)
              eq_refl eq_refl eq_refl eq_refl eq_refl eq_refl)
    as (_ & _ & H).
  exact H.
Defined.

(** Auto-listening restarts the recogniser when its session ends: with
    auto-listening on and nothing being read, [onend] leaves the phase idle
    and schedules a restart, and when that timer runs recognition is started
    again. *)
Theorem onend_restarts_listening (s : State) :
  autoListening s = true -> recognition s = true ->
  isReadingAloud s = false ->
  let s1 := step s RecEnd in
  let s2 := step s1 (TimerFire (nextTimer s)) in
  (isRecording s1 = false /\ isRecognitionStarting s1 = false
   /\ isRecognitionStopping s1 = false)
  /\ timers s1 !! nextTimer s = Some (RestartTask AfterEnd)
  /\ isRecognitionStarting s2 = true /\ recRunning s2 = true
  /\ isRecording s2 = false.
Proof.
  intros Hauto Hrec Hread s1 s2.
  assert (E1 : s1 = scheduleRestart AfterEnd
                      (set_isRecognitionStopping false
                         (set_isRecognitionStarting false
                            (set_isRecording false
                               (set_recRunning false s))))).
  { subst s1. cbn [step]. unfold recognitionOnEnd. state_simpl.
    now rewrite Hauto, Hrec, Hread. }
  assert (Hn : timers s1 !! nextTimer s = Some (RestartTask AfterEnd)).
  { rewrite E1. unfold scheduleRestart. state_simpl.
    destruct (restartTimeout s); state_simpl; apply lookup_insert_eq. }
  assert (F1 : isRecording s1 = false /\ isRecognitionStarting s1 = false
               /\ isRecognitionStopping s1 = false
               /\ autoListening s1 = true /\ recognition s1 = true
               /\ isReadingAloud s1 = false /\ recRunning s1 = false).
  { rewrite E1. unfold scheduleRestart. state_simpl.
    destruct (restartTimeout s); state_simpl; auto 10. }
  destruct F1 as (R1 & St1 & Sp1 & A1 & Rc1 & Rd1 & Rn1).
  split; [auto|]. split; [exact Hn|].
  subst s2. cbn [step]. rewrite Hn. cbn [runTask].
  unfold restartTask, safeStartRecognition. state_simpl.
  rewrite A1, Rd1, R1, St1, Sp1, Rc1. cbn [andb orb negb snd]. state_simpl.
  rewrite Rn1. cbn [snd]. state_simpl. auto.
Qed.

Lemma onend_restarts_listening_witness :
  let s := run (initial true true)
             [ToggleVoice false; PermissionAnswer Toggle Granted; RecStart] in
  (autoListening s = true /\ recognition s = true
   /\ isReadingAloud s = false)
  /\ recRunning (run s [RecEnd; TimerFire 2]) = true.
Proof.
  split; [repeat split|].
  destruct (onend_restarts_listening
              (run (initial true true)
                 [ToggleVoice false; PermissionAnswer Toggle Granted;
                  RecStart]) eq_refl eq_refl eq_refl)
    as (_ & _ & _ & H & _).
  exact H.
Defined.

(** Listening resumes after narration: when an utterance ends while
    auto-listening is on and the input is idle, a restart is scheduled, and
    when that timer runs the recogniser is started (or, if the engine still
    has a session, found to be listening). *)
Theorem utterance_end_resumes_listening (s : State) :
  autoListening s = true -> recognition s = true ->
  isRecording s = false -> isRecognitionStarting s = false ->
  isRecognitionStopping s = false ->
  let s1 := step s UttEnd in
  let s2 := step s1 (TimerFire (nextTimer s)) in
  isReadingAloud s1 = false
  /\ timers s1 !! nextTimer s = Some (RestartTask AfterUtterance)
  /\ isRecognitionStarting s2 || isRecording s2 = true
  /\ recRunning s2 = true.
Proof.
  intros Hauto Hrec Hr Hst Hsp s1 s2.
  assert (E1 : s1 = scheduleRestart AfterUtterance
                      (set_currentSpeech None
                         (set_isReadingAloud false
                            (set_isActive false
                               (set_currentUtterance None
                                  (set_synthSpeaking false
                                     (set_synthQueue (tail (synthQueue s))
                                        s))))))).
  { subst s1. cbn [step]. unfold utteranceOnEnd. state_simpl.
    now rewrite Hauto, Hrec, Hr, Hst, Hsp. }
  assert (Hn : timers s1 !! nextTimer s = Some (RestartTask AfterUtterance)).
  { rewrite E1. unfold scheduleRestart. state_simpl.
    destruct (restartTimeout s); state_simpl; apply lookup_insert_eq. }
  assert (F1 : isRecording s1 = false /\ isRecognitionStarting s1 = false
               /\ isRecognitionStopping s1 = false
               /\ autoListening s1 = true /\ recognition s1 = true
               /\ isReadingAloud s1 = false
               /\ recRunning s1 = recRunning s).
  { rewrite E1. unfold scheduleRestart. state_simpl.
    destruct (restartTimeout s); state_simpl; auto 10. }
  destruct F1 as (R1 & St1 & Sp1 & A1 & Rc1 & Rd1 & Rn1).
  split; [exact Rd1|]. split; [exact Hn|].
  subst s2. cbn [step]. rewrite Hn. cbn [runTask].
  unfold restartTask, safeStartRecognition. state_simpl.
  rewrite A1, Rd1, R1, St1, Sp1, Rc1. cbn [andb orb negb snd]. state_simpl.
  rewrite Rn1. destruct (recRunning s) eqn:Hrun; cbn [snd]; state_simpl;
    rewrite ?Hrun; auto.
Qed.

Lemma utterance_end_resumes_listening_witness :
  let s := run (initial true true)
             [ToggleVoice false; PermissionAnswer Toggle Granted; RecStart;
              RecEnd; SubmitSearch "messi";
              SearchDone (SearchFailed "no answer"); TimerFire 3; UttStart] in
  (autoListening s = true /\ isRecording s = false
   /\ isReadingAloud s = true)
  /\ recRunning (run s [UttEnd; TimerFire 4]) = true.
Proof.
  split; [repeat split|].
  destruct (utterance_end_resumes_listening
              (run (initial true true)
                 [ToggleVoice false; PermissionAnswer Toggle Granted;
                  RecStart; RecEnd; SubmitSearch "messi";
                  SearchDone (SearchFailed "no answer"); TimerFire 3;
                  UttStart]) eq_refl eq_refl eq_refl eq_refl eq_refl)
    as (_ & _ & _ & H).
  exact H.
Defined.

(** ** The favourites report *)

Section ReportFacts.
Import Str Favorites Report.

Lemma startsWith_app (p a b : string) :
  startsWith p a = true -> startsWith p (a +:+ b) = true.
Proof.
  revert a. induction p as [|c p IH]; intros [|d a];
    simpl; try easy.
  intros [H1 H2]%andb_prop. rewrite H1. cbn [andb]. auto.
Qed.

Lemma startsWith_refl_app (p b : string) : startsWith p (p +:+ b) = true.
Proof.
  induction p as [|c p IH]; [reflexivity|]. simpl.
  now rewrite Ascii.eqb_refl.
Qed.

Lemma includes_app_l (a b p : string) :
  includes a p = true -> includes (a +:+ b) p = true.
Proof.
  induction a as [|c a IH].
  - simpl. rewrite orb_false_r. destruct p; [|discriminate]. intros _.
    now destruct b.
  - change (includes (String c a) p)
      with (startsWith p (String c a) || includes a p).
    change (includes (String c a +:+ b) p)
      with (startsWith p (String c a +:+ b) || includes (a +:+ b) p).
    intros [H|H]%orb_prop.
    + now rewrite (startsWith_app _ _ b H).
    + rewrite (IH H). apply orb_true_r.
Qed.

Lemma includes_app_r (a b p : string) :
  includes b p = true -> includes (a +:+ b) p = true.
Proof.
  intros H. induction a as [|c a IH]; [exact H|].
  change (includes (String c a +:+ b) p)
    with (startsWith p (String c a +:+ b) || includes (a +:+ b) p).
  rewrite IH. apply orb_true_r.
Qed.

Lemma includes_here (p b : string) : includes (p +:+ b) p = true.
Proof.
  destruct p as [|c p]; [now destruct b|].
  change (includes (String c p +:+ b) (String c p))
    with (startsWith (String c p) (String c p +:+ b)
          || includes (p +:+ b) (String c p)).
  now rewrite startsWith_refl_app.
Qed.

Lemma playerLines_mentions (idx : nat) (l : list Favorite) (f : Favorite) :
  In f l ->
  includes (playerLines idx l) (orDefault (player_name f) "Unknown player")
  = true.
Proof.
  revert idx. induction l as [|g l IH]; intros idx; [intros []|].
  intros [->|Hin]; cbn [playerLines]; cbv zeta.
  - apply includes_app_l.
    destruct (negb _); do 3 apply includes_app_r; apply includes_here.
  - apply includes_app_r. now apply IH.
Qed.

Lemma playerLines_mentions_club (idx : nat) (l : list Favorite)
    (f : Favorite) :
  In f l ->
  includes (playerLines idx l) (orDefault (club_name f) "") = true.
Proof.
  revert idx. induction l as [|g l IH]; intros idx; [intros []|].
  intros [->|Hin]; cbn [playerLines]; cbv zeta.
  - apply includes_app_l.
    destruct (orDefault (club_name f) "") eqn:E; cbn [isEmpty negb].
    + reflexivity.
    + do 5 apply includes_app_r. apply includes_here.
  - apply includes_app_r. now apply IH.
Qed.

Lemma clubLines_mentions (idx : nat) (l : list Favorite) (f : Favorite) :
  In f l ->
  includes (clubLines idx l) (orDefault (club_name f) "Unknown club") = true.
Proof.
  revert idx. induction l as [|g l IH]; intros idx; [intros []|].
  intros [->|Hin]; cbn [clubLines]; cbv zeta.
  - apply includes_app_l. do 3 apply includes_app_r. apply includes_here.
  - apply includes_app_r. now apply IH.
Qed.

Lemma length_pos_In (l : list Favorite) (f : Favorite) :
  In f l -> (0 <? List.length l)%nat = true.
Proof. destruct l; [intros [] | reflexivity]. Qed.

(** The favourites report leaves nobody out: every stored player is
    mentioned by name (or as "Unknown player" when the name is missing or
    empty) together with the stored club name, and every stored club by its
    name (or as "Unknown club"). *)
Theorem favoritesText_mentions_all (favorites : list Favorite)
    (f : Favorite) :
  In f favorites ->
  match type f with
  | player =>
      includes (favoritesText favorites)
        (orDefault (player_name f) "Unknown player") = true
      /\ includes (favoritesText favorites) (orDefault (club_name f) "")
         = true
  | club =>
      includes (favoritesText favorites)
        (orDefault (club_name f) "Unknown club") = true
  end.
Proof.
  intros Hin. unfold favoritesText. cbv zeta.
  destruct (type f) eqn:Ht.
  - assert (Hf : In f (List.filter (isType player) favorites))
      by (apply filter_In; split; [exact Hin|];
          unfold isType; now rewrite Ht).
    rewrite (length_pos_In _ _ Hf).
    split; apply includes_app_r, includes_app_l;
      do 5 apply includes_app_r.
    + now apply playerLines_mentions.
    + now apply playerLines_mentions_club.
  - assert (Hf : In f (List.filter (isType club) favorites))
      by (apply filter_In; split; [exact Hin|];
          unfold isType; now rewrite Ht).
    rewrite (length_pos_In _ _ Hf).
    apply includes_app_r, includes_app_r, includes_app_l.
    do 5 apply includes_app_r. now apply clubLines_mentions.
Qed.

Lemma favoritesText_mentions_all_witness :
  let messi :=
    mkFavorite player (Some "28003") (Some "Lionel Messi") None
      (Some "Inter Miami") None "2024-01-01T00:00:00.000Z" in
  let favorites :=
    [mkFavorite club None None (Some "131") (Some "FC Barcelona") None
       "2024-01-02T00:00:00.000Z"; messi] in
  In messi favorites
  /\ favoritesText favorites
     = "Your Favorites List. You have 1 favorite player. "
       +:+ "Player 1: Lionel Messi from Inter Miami. "
       +:+ "You have 1 favorite club. Club 1: FC Barcelona. "
       +:+ "End of favorites list. "
  /\ includes (favoritesText favorites) "Lionel Messi" = true.
Proof.
  assert (H : In (mkFavorite player (Some "28003") (Some "Lionel Messi") None
                    (Some "Inter Miami") None "2024-01-01T00:00:00.000Z")
                [mkFavorite club None None (Some "131") (Some "FC Barcelona")
                   None "2024-01-02T00:00:00.000Z";
                 mkFavorite player (Some "28003") (Some "Lionel Messi") None
                   (Some "Inter Miami") None "2024-01-01T00:00:00.000Z"])
    by (right; left; reflexivity).
  split; [exact H|]. split; [reflexivity|].
  exact (proj1 (favoritesText_mentions_all _ _ H)).
Defined.

End ReportFacts.
